(** * Heatmap frame receiver client: a shallow embedding of
      [heatmapReciever/heatmap_client.py] and the properties of its
      frame-transfer session.

    The client drives a remote service in two phases: two HTTP requests
    (initialize, generate) and then a receive-only WebSocket stream whose
    frames are decoded from base64 and written under an output directory,
    followed by a [metadata.txt] summary.

    Modelling conventions.
    - Python values that come out of [json.loads] / [response.json()] are the
      inductive [pyval]; a dict is its list of items, read with [dict_get].
    - Python exceptions are values of [exn]; a computation is a function from
      the machine state to an outcome ([Ok] / [Raise]) and a new state, so a
      raised exception keeps the effects that preceded it.
    - The remote service, the clock and the satellite file are an environment
      record [env]: what each request answers, what the stream delivers.  A
      wire message is represented by what [json.loads] makes of it.
    - The storage sink is a POSIX-like tree: a set of directories and a map
      from resolved absolute paths to file contents.  Paths are [pathlib]'s
      POSIX flavour.  Symbolic links, access rights, device errors and the
      operating system's limits on names (an embedded NUL, a component of
      more than 255 bytes) are outside the model, and a [mkdir] that fails is
      taken to leave the tree as it was.
    - Every [print] of the source appends a [Print] event to the trace; its
      text is kept symbolically (one constructor of [line] per statement, the
      interpolated values as arguments).  [print], [time.sleep] and
      [ws.close()] are taken not to raise, and nothing interrupts the process
      ([KeyboardInterrupt] is not an [Exception] and is not modelled). *)

From Stdlib Require Import ZArith Strings.Ascii Strings.Byte Floats.SpecFloat.
From stdpp Require Import base tactics option list gmap strings.

Local Open Scope Z_scope.

(** ** Python values and exceptions *)

(** The values [json.loads] can produce.  A float keeps its exact binary
    value. *)
#[warnings="-register-all"]
Inductive pyval : Type :=
  | PNone
  | PBool (b : bool)
  | PInt (n : Z)
  | PFloat (f : spec_float)
  | PStr (s : string)
  | PList (l : list pyval)
  | PDict (items : list (string * pyval)).

(** The exception classes that occur in the client.  All of them derive from
    [Exception]; [WebSocketTimeoutException] is the one the receive loop
    singles out. *)
Inductive exn : Type :=
  | WebSocketTimeoutException
  | WebSocketException (what : string)
  | RequestException (what : string)
  | HTTPError (status : Z)
  | JSONDecodeError
  | AttributeError
  | TypeError
  | ValueError
  | BinasciiError
  | FileNotFoundError
  | NotADirectoryError
  | IsADirectoryError
  | FileExistsError.

Inductive result (A : Type) : Type :=
  | Ok (a : A)
  | Raise (e : exn).
Arguments Ok {A} a.
Arguments Raise {A} e.

(** [d.get(key, default)] on the items of a dict. *)
Fixpoint dict_get (items : list (string * pyval)) (key : string) (default : pyval) : pyval :=
  match items with
  | [] => default
  | (k, v) :: rest => if String.eqb k key then v else dict_get rest key default
  end.

(** [x.get(key, default)] on an arbitrary value: only a dict has [get]. *)
Definition py_get (x : pyval) (key : string) (default : pyval) : result pyval :=
  match x with
  | PDict items => Ok (dict_get items key default)
  | _ => Raise AttributeError
  end.

(** Truth value of a Python object, as used by [or] and [not]. *)
Definition py_truthy (x : pyval) : bool :=
  match x with
  | PNone => false
  | PBool b => b
  | PInt n => negb (n =? 0)
  | PFloat (S754_zero _) => false
  | PFloat _ => true
  | PStr s => negb (String.eqb s "")
  | PList l => match l with [] => false | _ => true end
  | PDict items => match items with [] => false | _ => true end
  end.

(** [a or b]. *)
Definition py_or (a b : pyval) : pyval := if py_truthy a then a else b.

(** [n == x] for an int [n]: true for an equal int, the bool or the float
    of the same numeric value, false for everything else. *)
Definition py_int_eq (n : Z) (x : pyval) : bool :=
  match x with
  | PInt m => n =? m
  | PBool b => n =? (if b then 1 else 0)
  | PFloat (S754_zero _) => n =? 0
  | PFloat (S754_finite sg m e) =>
      let v := if sg then Z.neg m else Z.pos m in
      if 0 <=? e then n =? v * 2 ^ e else n * 2 ^ (- e) =? v
  | _ => false
  end.

(** [x == s] for a string literal [s]. *)
Definition py_str_eq (x : pyval) (s : string) : bool :=
  match x with
  | PStr t => String.eqb t s
  | _ => false
  end.

(** ** [str.replace] *)

(** Left-to-right, non-overlapping replacement of [old] (non-empty) by
    [new].  [skip] counts the characters of a match still to be dropped. *)
Fixpoint replace_from (old new : string) (skip : nat) (s : string) : string :=
  match s with
  | EmptyString => EmptyString
  | String c rest =>
      match skip with
      | S k => replace_from old new k rest
      | O =>
          if String.prefix old s
          then new +:+ replace_from old new (String.length old - 1) rest
          else String c (replace_from old new 0 rest)
      end
  end.

(** With an empty [old], [new] is inserted before every character and at the
    end. *)
Fixpoint intersperse_str (new s : string) : string :=
  match s with
  | EmptyString => new
  | String c rest => new +:+ String c (intersperse_str new rest)
  end.

Definition str_replace (s old new : string) : string :=
  match old with
  | EmptyString => intersperse_str new s
  | _ => replace_from old new 0 s
  end.

(** ** [base64.b64decode] *)

Definition bytes := list byte.

Definition ascii_code (c : ascii) : Z := Z.of_N (N_of_ascii c).

(** Value of a character of the standard base64 alphabet. *)
Definition b64_value (c : ascii) : option Z :=
  let n := ascii_code c in
  if (65 <=? n) && (n <=? 90) then Some (n - 65)
  else if (97 <=? n) && (n <=? 122) then Some (n - 97 + 26)
  else if (48 <=? n) && (n <=? 57) then Some (n - 48 + 52)
  else if n =? 43 then Some 62
  else if n =? 47 then Some 63
  else None.

Definition byte_of_Z (z : Z) : byte :=
  byte_of_ascii (ascii_of_N (Z.to_N (Z.land z 255))).

(** [binascii.a2b_base64] in its default, lenient mode: characters outside
    the alphabet are skipped, a complete pad sequence ends the input, and a
    quantum left open at the end is an error.  [out] is built in reverse. *)
Fixpoint a2b_base64_go (s : string) (quad_pos : nat) (leftchar : Z) (pads : nat)
    (out : bytes) : result bytes :=
  match s with
  | EmptyString =>
      match quad_pos with
      | O => Ok (reverse out)
      | _ => Raise BinasciiError
      end
  | String c rest =>
      if Ascii.eqb c "="%char then
        if (2 <=? quad_pos)%nat then
          if (4 <=? quad_pos + S pads)%nat then Ok (reverse out)
          else a2b_base64_go rest quad_pos leftchar (S pads) out
        else a2b_base64_go rest quad_pos leftchar pads out
      else
        match b64_value c with
        | None => a2b_base64_go rest quad_pos leftchar pads out
        | Some v =>
            match quad_pos with
            | 0%nat => a2b_base64_go rest 1 v 0 out
            | 1%nat =>
                a2b_base64_go rest 2 (Z.land v 15) 0
                  (byte_of_Z (Z.lor (Z.shiftl leftchar 2) (Z.shiftr v 4)) :: out)
            | 2%nat =>
                a2b_base64_go rest 3 (Z.land v 3) 0
                  (byte_of_Z (Z.lor (Z.shiftl leftchar 4) (Z.shiftr v 2)) :: out)
            | _ =>
                a2b_base64_go rest 0 0 0
                  (byte_of_Z (Z.lor (Z.shiftl leftchar 6) v) :: out)
            end
        end
  end.

Fixpoint is_ascii (s : string) : bool :=
  match s with
  | EmptyString => true
  | String c rest => (ascii_code c <? 128) && is_ascii rest
  end.

(** [base64.b64decode(x)]: a text argument must be ASCII; anything that is
    neither text nor bytes is a [TypeError]. *)
Definition b64decode (x : pyval) : result bytes :=
  match x with
  | PStr s => if is_ascii s then a2b_base64_go s 0 0 0 [] else Raise ValueError
  | _ => Raise TypeError
  end.

(** ** [pathlib] paths (POSIX flavour) *)

(** [s.split(sep)] for a one-character separator. *)
Fixpoint split_on (sep : ascii) (s : string) : list string :=
  match s with
  | EmptyString => [EmptyString]
  | String c rest =>
      if Ascii.eqb c sep then EmptyString :: split_on sep rest
      else match split_on sep rest with
           | [] => [String c EmptyString]
           | w :: ws => String c w :: ws
           end
  end.

(** A pure path: whether it starts at the root, and its components.  Empty
    components and [.] are dropped when a path is parsed; [..] is kept. *)
Record pure_path : Type := PurePath {
  anchored : bool;
  parts : list string
}.

Definition is_real_part (c : string) : bool :=
  negb (String.eqb c "") && negb (String.eqb c ".").

Definition Path (s : string) : pure_path :=
  {| anchored := String.prefix "/" s;
     parts := filter (λ c, is_real_part c = true) (split_on "/" s) |}.

(** [p / q] for two paths: an anchored right operand replaces the left. *)
Definition joinpath (p q : pure_path) : pure_path :=
  if anchored q then q
  else {| anchored := anchored p; parts := parts p ++ parts q |}.

(** [p / x] for an arbitrary value: only text can be joined. *)
Definition path_truediv (p : pure_path) (x : pyval) : result pure_path :=
  match x with
  | PStr s => Ok (joinpath p (Path s))
  | _ => Raise TypeError
  end.

(** [p.absolute()] in working directory [cwd]: no component is resolved. *)
Definition path_absolute (cwd : list string) (p : pure_path) : pure_path :=
  if anchored p then p else {| anchored := true; parts := cwd ++ parts p |}.

(** [p.parent], lexically. *)
Definition path_parent (p : pure_path) : pure_path :=
  {| anchored := anchored p; parts := take (length (parts p) - 1) (parts p) |}.

(** ** The storage sink *)

(** The summary text of [metadata.txt], one field per line written. *)
Record summary : Type := Summary {
  sum_received : Z;
  sum_expected : pyval;
  sum_directory : pure_path
}.

Inductive content : Type :=
  | Binary (b : bytes)
  | MetadataText (s : summary).

(** Directories and files by resolved absolute location (components from
    the root). *)
Record filesystem : Type := FileSystem {
  dirs : gset (list string);
  files : gmap (list string) content
}.

Definition dir_parent (d : list string) : list string :=
  take (length d - 1) d.

(** One component of a directory walk. *)
Definition step_dir (fs : filesystem) (cur : list string) (c : string) : result (list string) :=
  if String.eqb c ".." then Ok (dir_parent cur)
  else
    let d := cur ++ [c] in
    if decide (d ∈ dirs fs) then Ok d
    else if decide (is_Some (files fs !! d)) then Raise NotADirectoryError
    else Raise FileNotFoundError.

Fixpoint walk (fs : filesystem) (cur : list string) (cs : list string) : result (list string) :=
  match cs with
  | [] => Ok cur
  | c :: rest =>
      match step_dir fs cur c with
      | Ok d => walk fs d rest
      | Raise e => Raise e
      end
  end.

Definition start_dir (cwd : list string) (p : pure_path) : list string :=
  if anchored p then [] else cwd.

(** The last component of a path and what precedes it. *)
Definition split_last (cs : list string) : option (list string * string) :=
  match reverse cs with
  | [] => None
  | c :: r => Some (reverse r, c)
  end.

(** Where [open(p, 'w')] / [open(p, 'wb')] creates or truncates a file. *)
Definition resolve_for_write (fs : filesystem) (cwd : list string) (p : pure_path)
    : result (list string) :=
  match split_last (parts p) with
  | None => Raise IsADirectoryError
  | Some (init, name) =>
      match walk fs (start_dir cwd p) init with
      | Raise e => Raise e
      | Ok d =>
          if String.eqb name ".." then Raise IsADirectoryError
          else if decide (d ++ [name] ∈ dirs fs) then Raise IsADirectoryError
          else Ok (d ++ [name])
      end
  end.

Definition store (fs : filesystem) (target : list string) (c : content) : filesystem :=
  {| dirs := dirs fs; files := <[target := c]> (files fs) |}.

(** [p.is_dir()]. *)
Definition is_dir (fs : filesystem) (cwd : list string) (p : pure_path) : bool :=
  match walk fs (start_dir cwd p) (parts p) with
  | Ok _ => true
  | Raise _ => false
  end.

(** [os.mkdir(p)]. *)
Definition os_mkdir (fs : filesystem) (cwd : list string) (p : pure_path) : result filesystem :=
  match split_last (parts p) with
  | None => Raise FileExistsError
  | Some (init, name) =>
      match walk fs (start_dir cwd p) init with
      | Raise e => Raise e
      | Ok d =>
          if String.eqb name ".." then Raise FileExistsError
          else if decide (d ++ [name] ∈ dirs fs) then Raise FileExistsError
          else if decide (is_Some (files fs !! (d ++ [name]))) then Raise FileExistsError
          else Ok {| dirs := {[ d ++ [name] ]} ∪ dirs fs; files := files fs |}
      end
  end.

(** [p.mkdir(parents=False, exist_ok=True)]. *)
Definition mkdir_exist_ok (fs : filesystem) (cwd : list string) (p : pure_path)
    : result filesystem :=
  match os_mkdir fs cwd p with
  | Ok fs' => Ok fs'
  | Raise FileNotFoundError => Raise FileNotFoundError
  | Raise e => if is_dir fs cwd p then Ok fs else Raise e
  end.

(** [p.mkdir(parents=True, exist_ok=True)], by recursion on the reversed
    components of [p]: a missing ancestor is created first. *)
Fixpoint mkdir_parents (fs : filesystem) (cwd : list string) (anch : bool)
    (rparts : list string) : result filesystem :=
  let p := {| anchored := anch; parts := reverse rparts |} in
  match os_mkdir fs cwd p with
  | Ok fs' => Ok fs'
  | Raise FileNotFoundError =>
      match rparts with
      | [] => Raise FileNotFoundError
      | _ :: rparent =>
          match mkdir_parents fs cwd anch rparent with
          | Ok fs1 => mkdir_exist_ok fs1 cwd p
          | Raise e => Raise e
          end
      end
  | Raise e => if is_dir fs cwd p then Ok fs else Raise e
  end.

Definition path_mkdir (fs : filesystem) (cwd : list string) (p : pure_path) : result filesystem :=
  mkdir_parents fs cwd (anchored p) (reverse (parts p)).

(** ** Console lines and the trace of effects *)

(** One constructor per [print] statement of the source, in source order;
    the arguments are the interpolated values. *)
Inductive line : Type :=
  (* __init__ *)
  | L_banner
  | L_server (url : string)
  | L_output (dir : pure_path)
  (* initialize_backend *)
  | L_initializing (satellite_file : string)
  | L_backend_initialized
  | L_satellites (count : pyval)
  | L_init_failed (e : exn)
  (* start_generation *)
  | L_requesting
  | L_duration (seconds : Z)
  | L_step (seconds : Z)
  | L_generation_started
  | L_total_frames (total : pyval)
  | L_generate_failed (e : exn)
  (* receive_frames *)
  | L_connecting (url : string)
  | L_ws_connected
  | L_receiving
  | L_status (status : pyval)
  | L_progress (received : Z) (total : pyval)
  | L_transfer_complete (total : pyval)
  | L_ws_timeout
  | L_recv_error (e : exn)
  | L_ws_closed
  | L_metadata_saved (path : pure_path)
  | L_ws_failed (e : exn)
  (* main *)
  | L_need_satellite_file
  | L_init_failed_exiting
  | L_generate_failed_exiting
  | L_rule
  | L_transfer_done
  | L_saved_to (dir : pure_path).

(** Observable effects, in the order they happen.  A file event is recorded
    when the write has succeeded, with the location it resolved to. *)
Inductive event : Type :=
  | Print (l : line)
  | ReadJson (file : string)
  | HttpPost (url : string) (payload : pyval) (timeout : Z)
  | WsConnect (url : string) (timeout : Z)
  | WsClose
  | Sleep (seconds : Z)
  | FrameWritten (target : list string) (data : bytes)
  | MetadataWritten (target : list string) (s : summary).

(** ** The environment *)

(** What [requests.post] does: raise (connection refused, timeout, ...) or
    hand back a response with a status code and a body, [None] when the body
    is not JSON. *)
Inductive http_reply : Type :=
  | PostRaises (e : exn)
  | PostResponse (status : Z) (body : option pyval).

(** What one [ws.recv()] does: deliver a text, given by what [json.loads]
    makes of it ([None]: not JSON), or raise. *)
Inductive recv_event : Type :=
  | Message (parsed : option pyval)
  | RecvRaises (e : exn).

Record env : Type := Env {
  cwd : list string;
  (** [open(file)] followed by [json.load] *)
  read_json : string → result pyval;
  (** [requests.post(url, json=payload, timeout=t)] *)
  http_post : string → pyval → Z → http_reply;
  (** [create_connection(url, timeout=t)]: what the stream will deliver.
      Once the list is used up no message arrives within the read timeout. *)
  ws_connect : string → Z → result (list recv_event)
}.

(** ** The client object and the machine state *)

Record HeatmapClient : Type := Client {
  server_url : string;
  output_dir : pure_path;
  frames_received : Z;
  total_frames : pyval
}.

Record state : Type := State {
  self : HeatmapClient;
  fs : filesystem;
  trace : list event
}.

(** Computations: state passing with exceptions; the state reached when an
    exception is raised is kept. *)
Definition M (A : Type) : Type := state → result A * state.

#[global] Instance M_ret : MRet M := λ A a s, (Ok a, s).
#[global] Instance M_bind : MBind M := λ A B f m s,
  match m s with
  | (Ok a, s') => f a s'
  | (Raise e, s') => (Raise e, s')
  end.

Definition raise {A} (e : exn) : M A := λ s, (Raise e, s).

Definition lift_result {A} (r : result A) : M A :=
  match r with
  | Ok a => mret a
  | Raise e => raise e
  end.

(** [try: m except Exception as e: h e]. *)
Definition try_except {A} (m : M A) (h : exn → M A) : M A := λ s,
  match m s with
  | (Ok a, s') => (Ok a, s')
  | (Raise e, s') => h e s'
  end.

Definition get_self : M HeatmapClient := λ s, (Ok (self s), s).
Definition set_self (c : HeatmapClient) : M unit := λ s,
  (Ok tt, {| self := c; fs := fs s; trace := trace s |}).
Definition emit (ev : event) : M unit := λ s,
  (Ok tt, {| self := self s; fs := fs s; trace := trace s ++ [ev] |}).
Definition print (l : line) : M unit := emit (Print l).

Definition set_server_url (v : string) : M unit :=
  c ← get_self;
  set_self {| server_url := v; output_dir := output_dir c;
              frames_received := frames_received c; total_frames := total_frames c |}.
Definition set_output_dir (v : pure_path) : M unit :=
  c ← get_self;
  set_self {| server_url := server_url c; output_dir := v;
              frames_received := frames_received c; total_frames := total_frames c |}.
Definition set_frames_received (v : Z) : M unit :=
  c ← get_self;
  set_self {| server_url := server_url c; output_dir := output_dir c;
              frames_received := v; total_frames := total_frames c |}.
Definition set_total_frames (v : pyval) : M unit :=
  c ← get_self;
  set_self {| server_url := server_url c; output_dir := output_dir c;
              frames_received := frames_received c; total_frames := v |}.

(** File-system actions. *)
Definition mkdir_parents_exist_ok (E : env) (p : pure_path) : M unit := λ s,
  match path_mkdir (fs s) (cwd E) p with
  | Ok fs' => (Ok tt, {| self := self s; fs := fs'; trace := trace s |})
  | Raise e => (Raise e, s)
  end.

(** [p.write_bytes(data)]. *)
Definition write_bytes (E : env) (p : pure_path) (data : bytes) : M unit := λ s,
  match resolve_for_write (fs s) (cwd E) p with
  | Ok target =>
      (Ok tt, {| self := self s; fs := store (fs s) target (Binary data);
                 trace := trace s ++ [FrameWritten target data] |})
  | Raise e => (Raise e, s)
  end.

(** [with open(p, 'w') as f:] and the three [f.write] of the summary. *)
Definition write_metadata (E : env) (p : pure_path) (sm : summary) : M unit := λ s,
  match resolve_for_write (fs s) (cwd E) p with
  | Ok target =>
      (Ok tt, {| self := self s; fs := store (fs s) target (MetadataText sm);
                 trace := trace s ++ [MetadataWritten target sm] |})
  | Raise e => (Raise e, s)
  end.

(** Network actions. *)
Definition post (E : env) (url : string) (payload : pyval) (timeout : Z) : M http_reply :=
  emit (HttpPost url payload timeout);;
  match http_post E url payload timeout with
  | PostRaises e => raise e
  | r => mret r
  end.

(** [response.raise_for_status()]. *)
Definition raise_for_status (r : http_reply) : M unit :=
  match r with
  | PostResponse status _ =>
      if (400 <=? status) && (status <? 600) then raise (HTTPError status) else mret tt
  | PostRaises e => raise e
  end.

(** [response.json()]. *)
Definition response_json (r : http_reply) : M pyval :=
  match r with
  | PostResponse _ (Some v) => mret v
  | PostResponse _ None => raise JSONDecodeError
  | PostRaises e => raise e
  end.

Definition create_connection (E : env) (url : string) (timeout : Z) : M (list recv_event) :=
  emit (WsConnect url timeout);;
  lift_result (ws_connect E url timeout).

Definition sleep (seconds : Z) : M unit := emit (Sleep seconds).

(** ** [HeatmapClient] *)

(** [HeatmapClient.__init__(self, server_url, output_dir)]. *)
Definition __init__ (E : env) (server_url_arg output_dir_arg : string) : M unit :=
  set_server_url (str_replace (str_replace server_url_arg "http://" "") "https://" "");;
  set_output_dir (Path output_dir_arg);;
  c ← get_self;
  mkdir_parents_exist_ok E (output_dir c);;
  set_frames_received 0;;
  set_total_frames (PInt 0);;
  print L_banner;;
  c ← get_self;
  print (L_server (server_url c));;
  print (L_output (path_absolute (cwd E) (output_dir c))).

Definition initialize_url (c : HeatmapClient) : string :=
  "https://" +:+ server_url c +:+ "/api/initialize".
Definition generate_url (c : HeatmapClient) : string :=
  "https://" +:+ server_url c +:+ "/api/generate".
Definition ws_url (c : HeatmapClient) : string :=
  "wss://" +:+ server_url c +:+ "/ws/frames".

(** [HeatmapClient.initialize_backend(self, satellite_file, config)].  The
    satellite file is read before the [try] block. *)
Definition initialize_backend (E : env) (satellite_file : string) (config : pyval) : M bool :=
  print (L_initializing satellite_file);;
  emit (ReadJson satellite_file);;
  satellites ← lift_result (read_json E satellite_file);
  let payload := PDict [("satellites", satellites); ("config", py_or config (PDict []))] in
  try_except
    (c ← get_self;
     response ← post E (initialize_url c) payload 30;
     raise_for_status response;;
     result ← response_json response;
     print L_backend_initialized;;
     count ← lift_result (py_get result "satellite_count" (PInt 0));
     print (L_satellites count);;
     mret true)
    (λ e, print (L_init_failed e);; mret false).

(** [HeatmapClient.start_generation(self, duration_seconds, step_seconds,
    start_time)]. *)
Definition start_generation (E : env) (duration_seconds step_seconds : Z)
    (start_time : pyval) : M bool :=
  print L_requesting;;
  print (L_duration duration_seconds);;
  print (L_step step_seconds);;
  let payload := PDict [("duration_seconds", PInt duration_seconds);
                        ("step_seconds", PInt step_seconds);
                        ("start_time", start_time)] in
  try_except
    (c ← get_self;
     response ← post E (generate_url c) payload 10;
     raise_for_status response;;
     result ← response_json response;
     total ← lift_result (py_get result "total_frames" (PInt 0));
     set_total_frames total;;
     print L_generation_started;;
     c ← get_self;
     print (L_total_frames (total_frames c));;
     mret true)
    (λ e, print (L_generate_failed e);; mret false).

(** How one pass through the body of [while True] ends. *)
Inductive ctl : Type := Continue | Break.

(** [ws.recv()] followed by [json.loads]. *)
Definition recv_json (ev : recv_event) : M pyval :=
  match ev with
  | Message (Some data) => mret data
  | Message None => raise JSONDecodeError
  | RecvRaises e => raise e
  end.

(** The dispatch on [data.get("type")] inside the inner [try]. *)
Definition handle_message (E : env) (data : pyval) : M ctl :=
  msg_type ← lift_result (py_get data "type" PNone);
  if py_str_eq msg_type "status" then
    status ← lift_result (py_get data "data" (PDict []));
    shown ← lift_result (py_get status "status" (PStr "unknown"));
    print (L_status shown);;
    mret Continue
  else if py_str_eq msg_type "frame" then
    index ← lift_result (py_get data "index" PNone);
    total ← lift_result (py_get data "total" PNone);
    filename ← lift_result (py_get data "filename" PNone);
    timestamp ← lift_result (py_get data "timestamp" PNone);
    frame_base64 ← lift_result (py_get data "data" PNone);
    frame_bytes ← lift_result (b64decode frame_base64);
    c ← get_self;
    frame_path ← lift_result (path_truediv (output_dir c) filename);
    write_bytes E frame_path frame_bytes;;
    c ← get_self;
    set_frames_received (frames_received c + 1);;
    c ← get_self;
    (if (frames_received c mod 10 =? 0) || py_int_eq (frames_received c) total
     then print (L_progress (frames_received c) total)
     else mret tt);;
    mret Continue
  else if py_str_eq msg_type "complete" then
    total ← lift_result (py_get data "total_frames" PNone);
    print (L_transfer_complete total);;
    mret Break
  else mret Continue.

(** The two [except] clauses of the inner [try]; both leave the loop. *)
Definition on_receive_error (e : exn) : M ctl :=
  match e with
  | WebSocketTimeoutException => print L_ws_timeout;; mret Break
  | _ => print (L_recv_error e);; mret Break
  end.

(** One pass through the body of [while True]. *)
Definition loop_iteration (E : env) (ev : recv_event) : M ctl :=
  try_except (data ← recv_json ev; handle_message E data) on_receive_error.

(** The [while True] loop over what the stream delivers.  When nothing is
    left, [recv] times out. *)
Fixpoint receive_loop (E : env) (stream : list recv_event) : M unit :=
  match stream with
  | [] => loop_iteration E (RecvRaises WebSocketTimeoutException);; mret tt
  | ev :: rest =>
      c ← loop_iteration E ev;
      match c with
      | Continue => receive_loop E rest
      | Break => mret tt
      end
  end.

Definition metadata_path (c : HeatmapClient) : pure_path :=
  joinpath (output_dir c) (Path "metadata.txt").

Definition current_summary (E : env) (c : HeatmapClient) : summary :=
  {| sum_received := frames_received c;
     sum_expected := total_frames c;
     sum_directory := path_absolute (cwd E) (output_dir c) |}.

(** [HeatmapClient.receive_frames(self)]. *)
Definition receive_frames (E : env) : M unit :=
  c ← get_self;
  print (L_connecting (ws_url c));;
  try_except
    (stream ← create_connection E (ws_url c) 10;
     print L_ws_connected;;
     print L_receiving;;
     receive_loop E stream;;
     emit WsClose;;
     print L_ws_closed;;
     c ← get_self;
     write_metadata E (metadata_path c) (current_summary E c);;
     print (L_metadata_saved (path_absolute (cwd E) (metadata_path c))))
    (λ e, print (L_ws_failed e)).

(** ** [main] *)

Record args : Type := Args {
  arg_server : string;
  arg_output : string;
  arg_satellite_file : option string;
  arg_duration : Z;
  arg_step : Z;
  arg_start_time : option string;
  arg_skip_init : bool;
  arg_skip_generate : bool
}.

(** Which [return] of [main] was taken (all of them return [None]; the label
    only tells them apart). *)
Inductive main_exit : Type :=
  | NoSatelliteFile
  | InitializationFailed
  | GenerationFailed
  | Finished.

Definition optional_str (o : option string) : pyval :=
  match o with
  | Some s => PStr s
  | None => PNone
  end.

(** From [client.receive_frames()] to the end of [main]. *)
Definition main_receive (E : env) : M main_exit :=
  receive_frames E;;
  print L_rule;;
  print L_transfer_done;;
  c ← get_self;
  print (L_saved_to (path_absolute (cwd E) (output_dir c)));;
  print L_rule;;
  mret Finished.

(** From [# Start generation] on. *)
Definition main_generate (E : env) (a : args) : M main_exit :=
  if negb (arg_skip_generate a) then
    ok ← start_generation E (arg_duration a) (arg_step a) (optional_str (arg_start_time a));
    if negb ok then
      print L_generate_failed_exiting;;
      mret GenerationFailed
    else
      sleep 2;;
      main_receive E
  else main_receive E.

(** From [# Initialize backend] on. *)
Definition main_initialize (E : env) (a : args) : M main_exit :=
  if negb (arg_skip_init a) then
    if negb (py_truthy (optional_str (arg_satellite_file a))) then
      print L_need_satellite_file;;
      mret NoSatelliteFile
    else
      ok ← initialize_backend E (default "" (arg_satellite_file a)) PNone;
      if negb ok then
        print L_init_failed_exiting;;
        mret InitializationFailed
      else
        sleep 1;;
        main_generate E a
  else main_generate E a.

(** [main()], after [parser.parse_args()]. *)
Definition main (E : env) (a : args) : M main_exit :=
  __init__ E (arg_server a) (arg_output a);;
  main_initialize E a.

(** ** Notions used to state the properties *)

(** The passes of the loop body over the first messages of a stream, without
    the time-out that follows an exhausted stream: the state reached after
    [evs], and whether the loop is still running. *)
Fixpoint loop_passes (E : env) (evs : list recv_event) : M ctl :=
  match evs with
  | [] => mret Continue
  | ev :: rest =>
      c ← loop_iteration E ev;
      match c with
      | Continue => loop_passes E rest
      | Break => mret Break
      end
  end.

(** Projections of a trace. *)
Definition frame_write_event (e : event) : option (list string * bytes) :=
  match e with
  | FrameWritten target data => Some (target, data)
  | _ => None
  end.
Definition summary_event (e : event) : option (list string * summary) :=
  match e with
  | MetadataWritten target sm => Some (target, sm)
  | _ => None
  end.
Definition connect_event (e : event) : option string :=
  match e with
  | WsConnect url _ => Some url
  | _ => None
  end.

Definition frame_writes (t : list event) : list (list string * bytes) :=
  omap frame_write_event t.
Definition summaries_written (t : list event) : list (list string * summary) :=
  omap summary_event t.
Definition connections_opened (t : list event) : list string :=
  omap connect_event t.

(** The client after [self.frames_received += 1]. *)
Definition bump (c : HeatmapClient) : HeatmapClient :=
  {| server_url := server_url c; output_dir := output_dir c;
     frames_received := frames_received c + 1; total_frames := total_frames c |}.

(** The file a delivery writes in state [s] and the bytes it writes there,
    if it is a frame message that decodes and whose name can be opened. *)
Definition frame_write_of (E : env) (s : state) (ev : recv_event) : option (list string * bytes) :=
  match ev with
  | Message (Some (PDict items)) =>
      if py_str_eq (dict_get items "type" PNone) "frame" then
        match b64decode (dict_get items "data" PNone),
              path_truediv (output_dir (self s)) (dict_get items "filename" PNone) with
        | Ok payload, Ok p =>
            match resolve_for_write (fs s) (cwd E) p with
            | Ok target => Some (target, payload)
            | Raise _ => None
            end
        | _, _ => None
        end
      else None
  | _ => None
  end.

(** A wire message of type [frame]. *)
Definition frame_message (index total : Z) (filename timestamp data : string) : recv_event :=
  Message (Some (PDict [("type", PStr "frame"); ("index", PInt index); ("total", PInt total);
                        ("filename", PStr filename); ("timestamp", PStr timestamp);
                        ("data", PStr data)])).

Definition complete_message (total : Z) : recv_event :=
  Message (Some (PDict [("type", PStr "complete"); ("total_frames", PInt total)])).

(** [pat] occurs somewhere in [s]. *)
Fixpoint occurs (pat s : string) : bool :=
  String.prefix pat s ||
  match s with
  | EmptyString => false
  | String _ rest => occurs pat rest
  end.

(** What [__init__] makes of its [server_url] argument. *)
Definition strip_scheme (url : string) : string :=
  str_replace (str_replace url "http://" "") "https://" "".

(** The location [target] lies under the directory [root]. *)
Definition inside (root target : list string) : bool :=
  bool_decide (root `prefix_of` target).

(** The console lines that follow a frame write. *)
Definition progress_lines (received : Z) (total : pyval) : list event :=
  if (received mod 10 =? 0) || py_int_eq received total
  then [Print (L_progress received total)]
  else [].

(** The exception a reply raises inside the [try] of a control request, if
    any: the transport's own, a 4xx/5xx status, a body that is not JSON, or
    a JSON body that is not an object. *)
Definition reply_failure (r : http_reply) : option exn :=
  match r with
  | PostRaises e => Some e
  | PostResponse status body =>
      if (400 <=? status) && (status <? 600) then Some (HTTPError status)
      else match body with
           | None => Some JSONDecodeError
           | Some (PDict _) => None
           | Some _ => Some AttributeError
           end
  end.

Definition initialize_payload (satellites config : pyval) : pyval :=
  PDict [("satellites", satellites); ("config", py_or config (PDict []))].

Definition generate_payload (duration_seconds step_seconds : Z) (start_time : pyval) : pyval :=
  PDict [("duration_seconds", PInt duration_seconds); ("step_seconds", PInt step_seconds);
         ("start_time", start_time)].

(** The state in which the receive loop starts. *)
Definition connected (s : state) : state :=
  {| self := self s; fs := fs s;
     trace := trace s ++ [Print (L_connecting (ws_url (self s))); WsConnect (ws_url (self s)) 10;
                          Print L_ws_connected; Print L_receiving] |}.

(** What a stretch of the streaming phase can change: the counter and the
    files named by the frame events it appends; nothing but frame events and
    console lines is appended. *)
Record streamed (s s' : state) (new : list event) : Prop := Streamed {
  st_trace : trace s' = trace s ++ new;
  st_counter :
    frames_received (self s') = frames_received (self s) + Z.of_nat (length (frame_writes new));
  st_summaries : summaries_written new = [];
  st_connections : connections_opened new = [];
  st_server_url : server_url (self s') = server_url (self s);
  st_output_dir : output_dir (self s') = output_dir (self s);
  st_total_frames : total_frames (self s') = total_frames (self s);
  st_dirs : dirs (fs s') = dirs (fs s);
  st_files : ∀ t, t ∉ (frame_writes new).*1 → files (fs s') !! t = files (fs s) !! t
}.

(** What the control phase can do to the state: console lines, file reads,
    requests and pauses; no frame, no summary, no connection; the sink and
    the client untouched, [total_frames] apart. *)
Record control_step (s s' : state) (new : list event) : Prop := ControlStep {
  cs_trace : trace s' = trace s ++ new;
  cs_frames : frame_writes new = [];
  cs_summaries : summaries_written new = [];
  cs_connections : connections_opened new = [];
  cs_fs : fs s' = fs s;
  cs_server_url : server_url (self s') = server_url (self s);
  cs_output_dir : output_dir (self s') = output_dir (self s);
  cs_frames_received : frames_received (self s') = frames_received (self s)
}.

(** A stretch of a session in which frames may have been written: the
    counter moves with the frame events. *)
Record counted (s s' : state) (new : list event) : Prop := Counted {
  ct_trace : trace s' = trace s ++ new;
  ct_counter :
    frames_received (self s') = frames_received (self s) + Z.of_nat (length (frame_writes new));
  ct_output_dir : output_dir (self s') = output_dir (self s);
  ct_server_url : server_url (self s') = server_url (self s)
}.


(** ** Further notions *)

(** The requests of a trace, by URL. *)
Definition post_event (e : event) : option string :=
  match e with
  | HttpPost url _ _ => Some url
  | _ => None
  end.
Definition posts_made (t : list event) : list string := omap post_event t.

(** The satellite files a trace reads. *)
Definition read_event (e : event) : option string :=
  match e with
  | ReadJson file => Some file
  | _ => None
  end.
Definition files_read (t : list event) : list string := omap read_event t.

(** Frame writes and console lines, the only events of the receive loop. *)
Definition frame_or_line (e : event) : bool :=
  match e with
  | FrameWritten _ _ | Print _ => true
  | _ => false
  end.

(** What a run may do to the sink: files change only where a frame or the
    summary was written, no file disappears, no directory disappears. *)
Record sink_effect (s s' : state) (new : list event) : Prop := SinkEffect {
  se_trace : trace s' = trace s ++ new;
  se_files : ∀ t, t ∉ (frame_writes new).*1 → t ∉ (summaries_written new).*1 →
                  files (fs s') !! t = files (fs s) !! t;
  se_keeps : ∀ t, is_Some (files (fs s) !! t) → is_Some (files (fs s') !! t);
  se_dirs : dirs (fs s) ⊆ dirs (fs s')
}.

(** The endpoints [main] may post to, in order, given its flags. *)
Definition requests_allowed (a : args) (c : HeatmapClient) : list string :=
  (if arg_skip_init a then [] else [initialize_url c]) ++
  (if arg_skip_generate a then [] else [generate_url c]).

(** The client as [__init__] leaves it. *)
Definition constructed (url out : string) : HeatmapClient :=
  {| server_url := strip_scheme url; output_dir := Path out;
     frames_received := 0; total_frames := PInt 0 |}.

(** The four lines [main] prints after [receive_frames]. *)
Definition closing_lines (E : env) (c : HeatmapClient) : list event :=
  [Print L_rule; Print L_transfer_done;
   Print (L_saved_to (path_absolute (cwd E) (output_dir c))); Print L_rule].

(** What the receive loop appends and what it keeps. *)
Record looped (s s' : state) (new : list event) : Prop := Looped {
  lp_streamed : streamed s s' new;
  lp_events : Forall (λ e, frame_or_line e = true) new;
  lp_keeps : ∀ t, is_Some (files (fs s) !! t) → is_Some (files (fs s') !! t)
}.

(** ** A concrete deployment, for the examples *)

Module Example.
(** A disk with [/etc] and [/srv]; the client runs in [/srv]. *)
Definition disk : filesystem :=
  {| dirs := {[ []; ["etc"]; ["srv"] ]}; files := ∅ |}.

(** The machine before [main] starts: nothing traced, and an object whose
    attributes [__init__] has yet to assign. *)
Definition boot : state :=
  {| self := {| server_url := ""; output_dir := Path ""; frames_received := -1;
                total_frames := PNone |};
     fs := disk; trace := [] |}.

(** A service at [example.org], given by its three answers. *)
Definition service (initialize generate : http_reply) (stream : result (list recv_event))
    : env :=
  {| cwd := ["srv"];
     read_json := λ file,
       if String.eqb file "sat.json" then Ok (PList []) else Raise FileNotFoundError;
     http_post := λ url _ _,
       if String.eqb url "https://example.org/api/initialize" then initialize
       else if String.eqb url "https://example.org/api/generate" then generate
       else PostRaises (RequestException "no such host");
     ws_connect := λ url _,
       if String.eqb url "wss://example.org/ws/frames" then stream
       else Raise (WebSocketException "no such host") |}.

Definition initialized : http_reply :=
  PostResponse 200 (Some (PDict [("satellite_count", PInt 3)])).
Definition generating (total : Z) : http_reply :=
  PostResponse 200 (Some (PDict [("total_frames", PInt total)])).

Definition cli : args :=
  {| arg_server := "http://example.org"; arg_output := "out";
     arg_satellite_file := Some "sat.json"; arg_duration := 3600; arg_step := 10;
     arg_start_time := None; arg_skip_init := false; arg_skip_generate := false |}.

(** A client for [example.org] writing to [/srv/out], after a control phase
    that announced 5 frames. *)
Definition ready : state :=
  {| self := {| server_url := "example.org"; output_dir := Path "out"; frames_received := 0;
                total_frames := PInt 5 |};
     fs := {| dirs := {[ []; ["etc"]; ["srv"]; ["srv"; "out"] ]}; files := ∅ |};
     trace := [] |}.

(** "hi" and "yo" in base64. *)
Definition hi : string := "aGk=".
Definition yo : string := "eW8=".

(** A frame message without its [data] field. *)
Definition frame_without_data : recv_event :=
  Message (Some (PDict [("type", PStr "frame"); ("index", PInt 1); ("total", PInt 3);
                        ("filename", PStr "f1.png"); ("timestamp", PStr "t1")])).
End Example.

(** * Properties *)

(** ** Running the monad *)

Ltac run_M :=
  repeat (progress
    (cbn -[b64decode py_str_eq resolve_for_write path_mkdir Z.modulo Z.add py_int_eq
           Path str_replace String.append] in *
     || unfold mbind, mret, M_bind, M_ret, raise, lift_result, try_except, get_self,
          set_self, emit, print, sleep, set_server_url, set_output_dir,
          set_frames_received, set_total_frames, write_bytes, write_metadata,
          mkdir_parents_exist_ok in *)).

(** ** Traces *)

Lemma frame_writes_app t1 t2 : frame_writes (t1 ++ t2) = frame_writes t1 ++ frame_writes t2.
Proof. apply omap_app. Qed.

Lemma summaries_written_app t1 t2 :
  summaries_written (t1 ++ t2) = summaries_written t1 ++ summaries_written t2.
Proof. apply omap_app. Qed.

Lemma connections_opened_app t1 t2 :
  connections_opened (t1 ++ t2) = connections_opened t1 ++ connections_opened t2.
Proof. apply omap_app. Qed.

Lemma frame_writes_prints ls : frame_writes (map Print ls) = [].
Proof. induction ls; simpl; auto. Qed.

Lemma summaries_written_prints ls : summaries_written (map Print ls) = [].
Proof. induction ls; simpl; auto. Qed.

Lemma connections_opened_prints ls : connections_opened (map Print ls) = [].
Proof. induction ls; simpl; auto. Qed.

(** ** One pass of the receive loop *)

(** Either the pass writes one frame, bumps the counter and goes on, or it
    changes nothing but the console. *)
Lemma loop_iteration_spec E ev s :
  match frame_write_of E s ev with
  | Some (target, payload) =>
      ∃ lines, loop_iteration E ev s =
        (Ok Continue, {| self := bump (self s); fs := store (fs s) target (Binary payload);
                         trace := trace s ++ FrameWritten target payload :: map Print lines |})
  | None =>
      ∃ c lines, loop_iteration E ev s =
        (Ok c, {| self := self s; fs := fs s; trace := trace s ++ map Print lines |})
  end.
Proof.
  destruct s as [c f t].
  unfold frame_write_of, loop_iteration, recv_json, handle_message, on_receive_error, py_get.
  destruct ev as [[data|]|e].
  - destruct data; run_M.
    all: try (by eexists Break, [_]).
    destruct (py_str_eq (dict_get items "type" PNone) "status") eqn:Hst.
    { assert (py_str_eq (dict_get items "type" PNone) "frame" = false) as ->.
      { destruct (dict_get items "type" PNone); try done.
        simpl in *. by apply String.eqb_eq in Hst as ->. }
      destruct (dict_get items "data" (PDict [])); run_M; try (by eexists Break, [_]).
      by eexists Continue, [_]. }
    destruct (py_str_eq (dict_get items "type" PNone) "frame") eqn:Hfr.
    { destruct (b64decode _) as [payload|e] eqn:Hd; run_M.
      2:{ destruct e; by eexists Break, [_]. }
      destruct (path_truediv _ _) as [p|e] eqn:Hp; run_M.
      2:{ destruct e; by eexists Break, [_]. }
      destruct (resolve_for_write _ _ _) as [target|e] eqn:Hr; run_M.
      2:{ destruct e; by eexists Break, [_]. }
      destruct (_ || _); run_M.
      - eexists [_]. by rewrite <- app_assoc.
      - by eexists []. }
    destruct (py_str_eq (dict_get items "type" PNone) "complete") eqn:Hco; run_M.
    + by eexists Break, [_].
    + eexists Continue, []. by rewrite app_nil_r.
  - run_M. by eexists Break, [_].
  - destruct e; run_M; by eexists Break, [_].
Qed.

Lemma streamed_refl s : streamed s s [].
Proof. split; simpl; auto using app_nil_r. lia. Qed.

Lemma streamed_trans s1 s2 s3 new1 new2 :
  streamed s1 s2 new1 → streamed s2 s3 new2 → streamed s1 s3 (new1 ++ new2).
Proof.
  intros [] []. split; try congruence.
  - rewrite app_assoc. congruence.
  - rewrite frame_writes_app, length_app. lia.
  - rewrite summaries_written_app. by rewrite st_summaries0, st_summaries1.
  - rewrite connections_opened_app. by rewrite st_connections0, st_connections1.
  - intros t Ht. rewrite frame_writes_app, fmap_app, not_elem_of_app in Ht.
    destruct Ht. rewrite st_files1, st_files0; auto.
Qed.

Lemma streamed_prints s ls :
  streamed s {| self := self s; fs := fs s; trace := trace s ++ map Print ls |} (map Print ls).
Proof.
  split; simpl; auto using summaries_written_prints, connections_opened_prints.
  rewrite frame_writes_prints. simpl. lia.
Qed.

Lemma loop_iteration_streamed E ev s :
  ∃ c s' new, loop_iteration E ev s = (Ok c, s') ∧ streamed s s' new.
Proof.
  pose proof (loop_iteration_spec E ev s) as H.
  destruct (frame_write_of E s ev) as [[target payload]|].
  - destruct H as [ls H]. eexists _, _, _. split; [exact H|].
    assert (frame_writes (FrameWritten target payload :: map Print ls) = [(target, payload)])
      as Hf by (unfold frame_writes; simpl; f_equal; apply frame_writes_prints).
    split; rewrite ?Hf; simpl; auto using summaries_written_prints, connections_opened_prints.
    intros t Ht. apply lookup_insert_ne. set_solver.
  - destruct H as (c & ls & H). eexists _, _, _. split; [exact H|]. apply streamed_prints.
Qed.

Lemma loop_passes_streamed E evs s :
  ∃ c s' new, loop_passes E evs s = (Ok c, s') ∧ streamed s s' new.
Proof.
  revert s. induction evs as [|ev evs IH]; intros s.
  - eexists _, _, _. split; [reflexivity|]. apply streamed_refl.
  - destruct (loop_iteration_streamed E ev s) as (c & s1 & new1 & H1 & Hs1).
    simpl. run_M. rewrite H1. destruct c.
    + destruct (IH s1) as (c2 & s2 & new2 & H2 & Hs2).
      eexists _, _, _. split; [exact H2|]. eapply streamed_trans; eauto.
    + eexists _, _, _. split; [reflexivity|]. done.
Qed.

Lemma loop_passes_cons E ev rest s :
  loop_passes E (ev :: rest) s =
    match loop_iteration E ev s with
    | (Ok Continue, s1) => loop_passes E rest s1
    | (Ok Break, s1) => (Ok Break, s1)
    | (Raise e, s1) => (Raise e, s1)
    end.
Proof. simpl. run_M. by destruct (loop_iteration E ev s) as [[[]|] s1]. Qed.

Lemma receive_loop_cons E ev rest s :
  receive_loop E (ev :: rest) s =
    match loop_iteration E ev s with
    | (Ok Continue, s1) => receive_loop E rest s1
    | (Ok Break, s1) => (Ok tt, s1)
    | (Raise e, s1) => (Raise e, s1)
    end.
Proof. simpl. run_M. by destruct (loop_iteration E ev s) as [[[]|] s1]. Qed.

Lemma loop_passes_app E evs1 evs2 s :
  loop_passes E (evs1 ++ evs2) s =
    match loop_passes E evs1 s with
    | (Ok Continue, s1) => loop_passes E evs2 s1
    | (Ok Break, s1) => (Ok Break, s1)
    | (Raise e, s1) => (Raise e, s1)
    end.
Proof.
  revert s. induction evs1 as [|ev evs1 IH]; intros s; [done|].
  rewrite <- app_comm_cons, !loop_passes_cons.
  destruct (loop_iteration E ev s) as [[[]|] s1]; auto.
Qed.

(** The source's loop is the passes over the stream, then a time-out if the
    stream ran dry. *)
Lemma receive_loop_passes E stream s :
  receive_loop E stream s =
    match loop_passes E stream s with
    | (Ok Continue, s1) => (loop_iteration E (RecvRaises WebSocketTimeoutException);; mret tt) s1
    | (Ok Break, s1) => (Ok tt, s1)
    | (Raise e, s1) => (Raise e, s1)
    end.
Proof.
  revert s. induction stream as [|ev rest IH]; intros s; [done|].
  simpl. run_M. destruct (loop_iteration E ev s) as [[[]|] s1]; auto.
Qed.

Lemma receive_loop_app E pre rest s s1 :
  loop_passes E pre s = (Ok Continue, s1) →
  receive_loop E (pre ++ rest) s = receive_loop E rest s1.
Proof.
  revert s. induction pre as [|ev pre IH]; intros s H.
  - simpl in H. run_M. by simplify_eq.
  - simpl in *. run_M. destruct (loop_iteration E ev s) as [[[]|] s2]; simplify_eq. auto.
Qed.

Lemma receive_loop_after_break E pre rest s s1 :
  loop_passes E pre s = (Ok Break, s1) →
  receive_loop E (pre ++ rest) s = (Ok tt, s1).
Proof.
  revert s. induction pre as [|ev pre IH]; intros s H.
  - simpl in H. run_M. by simplify_eq.
  - simpl in *. run_M. destruct (loop_iteration E ev s) as [[[]|] s2]; simplify_eq; auto.
Qed.

Lemma receive_loop_streamed E stream s :
  ∃ s' new, receive_loop E stream s = (Ok tt, s') ∧ streamed s s' new.
Proof.
  rewrite receive_loop_passes.
  destruct (loop_passes_streamed E stream s) as (c & s1 & new1 & -> & Hs1).
  destruct c; [|by eauto].
  destruct (loop_iteration_streamed E (RecvRaises WebSocketTimeoutException) s1)
    as (c2 & s2 & new2 & H2 & Hs2).
  run_M. rewrite H2. eexists _, _. split; [done|]. eapply streamed_trans; eauto.
Qed.

(** ** The storage sink *)

(** Whether and where a path opens depends on the directories only. *)
Lemma step_dir_dirs fs1 fs2 cur c d :
  dirs fs1 = dirs fs2 → step_dir fs1 cur c = Ok d → step_dir fs2 cur c = Ok d.
Proof.
  unfold step_dir. intros Hd. destruct (String.eqb c ".."); [done|].
  rewrite <- Hd. repeat case_decide; done.
Qed.

Lemma walk_dirs fs1 fs2 cur cs d :
  dirs fs1 = dirs fs2 → walk fs1 cur cs = Ok d → walk fs2 cur cs = Ok d.
Proof.
  intros Hd. revert cur. induction cs as [|c cs IH]; intros cur; simpl; [done|].
  destruct (step_dir fs1 cur c) as [d1|] eqn:H1; [|done].
  rewrite (step_dir_dirs _ _ _ _ _ Hd H1). apply IH.
Qed.

Lemma resolve_for_write_dirs fs1 fs2 cwd p t :
  dirs fs1 = dirs fs2 →
  resolve_for_write fs1 cwd p = Ok t → resolve_for_write fs2 cwd p = Ok t.
Proof.
  unfold resolve_for_write. intros Hd.
  destruct (split_last (parts p)) as [[init name]|]; [|done].
  destruct (walk fs1 _ init) as [d|] eqn:Hw; [|done].
  rewrite (walk_dirs _ _ _ _ _ Hd Hw), <- Hd. done.
Qed.

Lemma resolve_for_write_dirs_eq fs1 fs2 cwd p :
  dirs fs1 = dirs fs2 →
  match resolve_for_write fs1 cwd p with
  | Ok t => resolve_for_write fs2 cwd p = Ok t
  | Raise _ => ∃ e, resolve_for_write fs2 cwd p = Raise e
  end.
Proof.
  intros Hd. destruct (resolve_for_write fs1 cwd p) as [t|e] eqn:H1.
  - eauto using resolve_for_write_dirs.
  - destruct (resolve_for_write fs2 cwd p) as [t|e2] eqn:H2; [|by eauto].
    symmetry in Hd. rewrite (resolve_for_write_dirs _ _ _ _ _ Hd H2) in H1. done.
Qed.

(** The sink raises [OSError]s only, never a time-out. *)
Lemma walk_raises fs cur cs e :
  walk fs cur cs = Raise e → e = NotADirectoryError ∨ e = FileNotFoundError.
Proof.
  revert cur. induction cs as [|c cs IH]; intros cur; simpl; [done|].
  destruct (step_dir fs cur c) as [d|e1] eqn:H1; [by eauto|].
  intros [= <-]. unfold step_dir in H1.
  destruct (String.eqb c ".."); [done|]. repeat case_decide; naive_solver.
Qed.

Lemma resolve_for_write_raises fs cwd p e :
  resolve_for_write fs cwd p = Raise e → e ≠ WebSocketTimeoutException.
Proof.
  unfold resolve_for_write. destruct (split_last (parts p)) as [[init name]|]; [|by intros [= <-]].
  destruct (walk fs _ init) as [d|e1] eqn:Hw.
  - destruct (String.eqb name ".."); [congruence|]. destruct (decide _); congruence.
  - intros Heq. apply walk_raises in Hw. destruct Hw; congruence.
Qed.

(** Decoding raises [TypeError], [ValueError] or [binascii.Error] only. *)
Lemma a2b_base64_go_raises s q l p out e :
  a2b_base64_go s q l p out = Raise e → e = BinasciiError.
Proof.
  revert q l p out. induction s as [|c s IH]; intros q l p out; simpl.
  - destruct q; [done|]. by intros [= <-].
  - repeat case_match; try done; apply IH.
Qed.

Lemma b64decode_raises x e : b64decode x = Raise e → e ≠ WebSocketTimeoutException.
Proof.
  destruct x; simpl; try by intros [= <-].
  destruct (is_ascii s); [|by intros [= <-]]. intros Hgo%a2b_base64_go_raises. by subst.
Qed.

Lemma path_truediv_raises p x e : path_truediv p x = Raise e → e = TypeError.
Proof. destruct x; simpl; by intros [= <-]. Qed.

Lemma on_receive_error_other e s :
  e ≠ WebSocketTimeoutException →
  on_receive_error e s =
    (Ok Break, {| self := self s; fs := fs s; trace := trace s ++ [Print (L_recv_error e)] |}).
Proof. destruct e; done. Qed.

(** ** Frame messages, exactly *)

Section frame_message.
Context (E : env) (items : list (string * pyval)).
Hypothesis Htype : py_str_eq (dict_get items "type" PNone) "frame" = true.

Lemma frame_not_status : py_str_eq (dict_get items "type" PNone) "status" = false.
Proof.
  destruct (dict_get items "type" PNone); try done.
  simpl in *. apply String.eqb_eq in Htype as ->. done.
Qed.

(** A frame that decodes and whose name is text: the outcome is the
    sink's. *)
Lemma loop_iteration_frame s payload p :
  b64decode (dict_get items "data" PNone) = Ok payload →
  path_truediv (output_dir (self s)) (dict_get items "filename" PNone) = Ok p →
  loop_iteration E (Message (Some (PDict items))) s =
    match resolve_for_write (fs s) (cwd E) p with
    | Ok target =>
        (Ok Continue,
         {| self := bump (self s);
            fs := store (fs s) target (Binary payload);
            trace := trace s ++ FrameWritten target payload ::
                       progress_lines (frames_received (self s) + 1)
                                      (dict_get items "total" PNone) |})
    | Raise e =>
        (Ok Break,
         {| self := self s; fs := fs s; trace := trace s ++ [Print (L_recv_error e)] |})
    end.
Proof.
  intros Hd Hp. destruct s as [c f t].
  unfold loop_iteration, recv_json, handle_message, py_get. run_M.
  rewrite frame_not_status, Htype, Hd. run_M. rewrite Hp. run_M.
  destruct (resolve_for_write f (cwd E) p) as [target|e] eqn:Hr; run_M.
  - unfold progress_lines. destruct (_ || _); run_M; by rewrite <- ?app_assoc.
  - apply resolve_for_write_raises in Hr.
    by rewrite (on_receive_error_other e (State c f t)).
Qed.

(** A frame whose payload does not decode ends the loop; nothing is
    written. *)
Lemma loop_iteration_frame_undecodable s e :
  b64decode (dict_get items "data" PNone) = Raise e →
  loop_iteration E (Message (Some (PDict items))) s =
    (Ok Break, {| self := self s; fs := fs s; trace := trace s ++ [Print (L_recv_error e)] |}).
Proof.
  intros Hd. destruct s as [c f t].
  unfold loop_iteration, recv_json, handle_message, py_get. run_M.
  rewrite frame_not_status, Htype, Hd. run_M.
  apply b64decode_raises in Hd.
  by rewrite (on_receive_error_other e (State c f t)).
Qed.
End frame_message.

(** What a delivery writes does not depend on the files written so far. *)
Lemma frame_write_of_stable E s1 s2 ev :
  output_dir (self s1) = output_dir (self s2) →
  dirs (fs s1) = dirs (fs s2) →
  frame_write_of E s1 ev = frame_write_of E s2 ev.
Proof.
  intros Ho Hd. unfold frame_write_of.
  destruct ev as [[[]|]|]; try done. destruct (py_str_eq _ _); [|done].
  rewrite Ho. destruct (b64decode _); [|done]. destruct (path_truediv _ _) as [p|]; [|done].
  pose proof (resolve_for_write_dirs_eq (fs s1) (fs s2) (cwd E) p Hd) as H.
  destruct (resolve_for_write (fs s1) (cwd E) p); [by rewrite H|].
  by destruct H as [e' ->].
Qed.

(** Later deliveries that write elsewhere leave a file as it is. *)
Lemma loop_iteration_keeps_file E ev s target :
  (∀ d, frame_write_of E s ev ≠ Some (target, d)) →
  files (fs (loop_iteration E ev s).2) !! target = files (fs s) !! target.
Proof.
  intros Hne. pose proof (loop_iteration_spec E ev s) as H.
  destruct (frame_write_of E s ev) as [[t d]|].
  - destruct H as [ls ->]. simpl. apply lookup_insert_ne. naive_solver.
  - by destruct H as (c & ls & ->).
Qed.

Lemma receive_loop_keeps_file E post s target :
  Forall (λ ev, ∀ d, frame_write_of E s ev ≠ Some (target, d)) post →
  files (fs (receive_loop E post s).2) !! target = files (fs s) !! target.
Proof.
  revert s. induction post as [|ev post IH]; intros s Hall.
  - done.
  - inversion Hall as [|? ? Hev Hpost]; subst. simpl. run_M.
    destruct (loop_iteration_streamed E ev s) as (c & s1 & new & H1 & Hs1).
    pose proof (loop_iteration_keeps_file E ev s target Hev) as Hk.
    rewrite H1 in *. simpl in Hk. destruct c; [|done].
    rewrite IH, Hk; [done|].
    eapply Forall_impl; [exact Hpost|]. intros ev' Hev' d.
    rewrite <- (frame_write_of_stable E s s1); [done| |]; symmetry; apply Hs1.
Qed.

(** ** The methods of the client *)

Lemma control_step_refl s : control_step s s [].
Proof. split; simpl; auto using app_nil_r. Qed.

Lemma control_step_trans s1 s2 s3 new1 new2 :
  control_step s1 s2 new1 → control_step s2 s3 new2 → control_step s1 s3 (new1 ++ new2).
Proof.
  intros [] []. split; try congruence.
  - rewrite app_assoc. congruence.
  - rewrite frame_writes_app. by rewrite cs_frames0, cs_frames1.
  - rewrite summaries_written_app. by rewrite cs_summaries0, cs_summaries1.
  - rewrite connections_opened_app. by rewrite cs_connections0, cs_connections1.
Qed.

Lemma control_step_emit s ev :
  frame_write_event ev = None → summary_event ev = None → connect_event ev = None →
  control_step s {| self := self s; fs := fs s; trace := trace s ++ [ev] |} [ev].
Proof.
  intros Hf Hs Hc. split; simpl; auto.
  - unfold frame_writes. simpl. by rewrite Hf.
  - unfold summaries_written. simpl. by rewrite Hs.
  - unfold connections_opened. simpl. by rewrite Hc.
Qed.

Lemma initialize_backend_read_error E file config s e :
  read_json E file = Raise e →
  initialize_backend E file config s =
    (Raise e, {| self := self s; fs := fs s;
                 trace := trace s ++ [Print (L_initializing file); ReadJson file] |}).
Proof.
  intros Hr. unfold initialize_backend. run_M. rewrite Hr. run_M.
  by rewrite <- app_assoc.
Qed.

Lemma initialize_backend_spec E file config s satellites :
  read_json E file = Ok satellites →
  let reply := http_post E (initialize_url (self s)) (initialize_payload satellites config) 30 in
  ∃ s' lines,
    initialize_backend E file config s =
      (Ok (bool_decide (reply_failure reply = None)), s') ∧
    self s' = self s ∧ fs s' = fs s ∧
    trace s' =
      trace s ++ [Print (L_initializing file); ReadJson file;
                  HttpPost (initialize_url (self s)) (initialize_payload satellites config) 30]
              ++ map Print lines ++
              match reply_failure reply with
              | Some e => [Print (L_init_failed e)]
              | None => []
              end.
Proof.
  intros Hr reply. destruct s as [c f t].
  unfold initialize_backend, post, raise_for_status, response_json, py_get. run_M.
  rewrite Hr. run_M. fold (initialize_payload satellites config).
  unfold reply, reply_failure. simpl.
  destruct (http_post E (initialize_url c) (initialize_payload satellites config) 30)
    as [e|status body]; run_M.
  { eexists _, []. split_and!; try done. simpl. by rewrite <- !app_assoc. }
  destruct ((400 <=? status) && (status <? 600)); run_M.
  { eexists _, []. split_and!; try done. simpl. by rewrite <- !app_assoc. }
  destruct body as [body|]; run_M.
  2:{ eexists _, []. split_and!; try done. simpl. by rewrite <- !app_assoc. }
  destruct body; run_M.
  all: try (eexists _, [_]; split_and!; try done; simpl; by rewrite <- !app_assoc).
  eexists _, [_; _]. split_and!; try done. simpl. by rewrite <- !app_assoc.
Qed.

Lemma start_generation_spec E duration step start_time s :
  let payload := generate_payload duration step start_time in
  let reply := http_post E (generate_url (self s)) payload 10 in
  ∃ s' lines,
    start_generation E duration step start_time s =
      (Ok (bool_decide (reply_failure reply = None)), s') ∧
    fs s' = fs s ∧
    server_url (self s') = server_url (self s) ∧
    output_dir (self s') = output_dir (self s) ∧
    frames_received (self s') = frames_received (self s) ∧
    total_frames (self s') =
      match reply with
      | PostResponse _ (Some (PDict body)) =>
          if bool_decide (reply_failure reply = None)
          then dict_get body "total_frames" (PInt 0)
          else total_frames (self s)
      | _ => total_frames (self s)
      end ∧
    trace s' =
      trace s ++ [Print L_requesting; Print (L_duration duration); Print (L_step step);
                  HttpPost (generate_url (self s)) payload 10]
              ++ map Print lines.
Proof.
  intros payload reply. destruct s as [c f t].
  unfold start_generation, post, raise_for_status, response_json, py_get. run_M.
  fold (generate_payload duration step start_time). fold payload.
  unfold reply, reply_failure. simpl.
  destruct (http_post E (generate_url c) payload 10) as [e|status body]; run_M.
  { eexists _, [_]. split_and!; try done. simpl. by rewrite <- !app_assoc. }
  destruct ((400 <=? status) && (status <? 600)) eqn:Hst; run_M.
  { eexists _, [_]. split_and!; try done; simpl.
    - by destruct body as [[]|].
    - by rewrite <- !app_assoc. }
  destruct body as [body|]; run_M.
  2:{ eexists _, [_]. split_and!; try done. simpl. by rewrite <- !app_assoc. }
  destruct body; run_M.
  all: try (eexists _, [_]; split_and!; try done; simpl; by rewrite <- !app_assoc).
  eexists _, [_; _]. split_and!; try done. simpl. by rewrite <- !app_assoc.
Qed.

Lemma control_step_of_trace s s' new :
  trace s' = trace s ++ new →
  frame_writes new = [] → summaries_written new = [] → connections_opened new = [] →
  fs s' = fs s → server_url (self s') = server_url (self s) →
  output_dir (self s') = output_dir (self s) →
  frames_received (self s') = frames_received (self s) →
  control_step s s' new.
Proof. by split. Qed.

Lemma initialize_backend_control E file config s :
  ∃ r s' new, initialize_backend E file config s = (r, s') ∧ control_step s s' new ∧
              total_frames (self s') = total_frames (self s).
Proof.
  destruct (read_json E file) as [sat|e] eqn:Hr.
  - destruct (initialize_backend_spec E file config s sat Hr) as (s' & ls & H & Hself & Hfs & Ht).
    eexists _, s', _. split; [exact H|]. split; [|by rewrite Hself].
    apply control_step_of_trace with (new := _); [exact Ht|..]; try by rewrite ?Hself.
    + rewrite !frame_writes_app, frame_writes_prints. by case_match.
    + rewrite !summaries_written_app, summaries_written_prints. by case_match.
    + rewrite !connections_opened_app, connections_opened_prints. by case_match.
  - rewrite (initialize_backend_read_error E file config s e Hr).
    eexists _, _, _. split; [done|]. split; [|done]. by split.
Qed.

Lemma start_generation_control E duration step start_time s :
  ∃ b s' new, start_generation E duration step start_time s = (Ok b, s') ∧
              control_step s s' new.
Proof.
  destruct (start_generation_spec E duration step start_time s)
    as (s' & ls & H & Hfs & Hu & Ho & Hf & _ & Ht).
  eexists _, s', _. split; [exact H|].
  apply control_step_of_trace with (new := _); [exact Ht|..]; try done.
  - by rewrite !frame_writes_app, frame_writes_prints.
  - by rewrite !summaries_written_app, summaries_written_prints.
  - by rewrite !connections_opened_app, connections_opened_prints.
Qed.

(** [__init__], exactly. *)
Lemma init_spec E url out s :
  __init__ E url out s =
    match path_mkdir (fs s) (cwd E) (Path out) with
    | Ok fs' =>
        (Ok tt,
         {| self := {| server_url := strip_scheme url; output_dir := Path out;
                       frames_received := 0; total_frames := PInt 0 |};
            fs := fs';
            trace := trace s ++ [Print L_banner; Print (L_server (strip_scheme url));
                                 Print (L_output (path_absolute (cwd E) (Path out)))] |})
    | Raise e =>
        (Raise e,
         {| self := {| server_url := strip_scheme url; output_dir := Path out;
                       frames_received := frames_received (self s);
                       total_frames := total_frames (self s) |};
            fs := fs s; trace := trace s |})
    end.
Proof.
  destruct s as [c f t]. unfold __init__. run_M.
  destruct (path_mkdir f (cwd E) (Path out)); run_M; [|done].
  by rewrite <- !app_assoc.
Qed.

(** [receive_frames], exactly: no connection, no loop and no summary; or the
    loop, the close and the summary, unless [metadata.txt] cannot be
    opened. *)
Lemma receive_frames_spec E s :
  match ws_connect E (ws_url (self s)) 10 with
  | Raise e =>
      receive_frames E s =
        (Ok tt, {| self := self s; fs := fs s;
                   trace := trace s ++ [Print (L_connecting (ws_url (self s)));
                                        WsConnect (ws_url (self s)) 10;
                                        Print (L_ws_failed e)] |})
  | Ok stream =>
      ∃ s1 new,
        receive_loop E stream (connected s) = (Ok tt, s1) ∧
        streamed (connected s) s1 new ∧
        receive_frames E s =
          match resolve_for_write (fs s1) (cwd E) (metadata_path (self s1)) with
          | Ok target =>
              (Ok tt,
               {| self := self s1;
                  fs := store (fs s1) target (MetadataText (current_summary E (self s1)));
                  trace := trace s1 ++
                    [WsClose; Print L_ws_closed;
                     MetadataWritten target (current_summary E (self s1));
                     Print (L_metadata_saved (path_absolute (cwd E) (metadata_path (self s1))))] |})
          | Raise e =>
              (Ok tt,
               {| self := self s1; fs := fs s1;
                  trace := trace s1 ++ [WsClose; Print L_ws_closed; Print (L_ws_failed e)] |})
          end
  end.
Proof.
  unfold receive_frames, create_connection. run_M.
  destruct (ws_connect E (ws_url (self s)) 10) as [stream|e]; run_M.
  2:{ by rewrite <- !app_assoc. }
  rewrite <- !app_assoc. simpl. fold (connected s).
  destruct (receive_loop_streamed E stream (connected s)) as (s1 & new & Hrun & Hst).
  exists s1, new. split; [done|]. split; [done|]. rewrite Hrun. run_M.
  destruct (resolve_for_write (fs s1) (cwd E) (metadata_path (self s1))); run_M;
    by rewrite <- !app_assoc.
Qed.

Lemma counted_trans s1 s2 s3 new1 new2 :
  counted s1 s2 new1 → counted s2 s3 new2 → counted s1 s3 (new1 ++ new2).
Proof.
  intros [] []. split; try congruence.
  - rewrite app_assoc. congruence.
  - rewrite frame_writes_app, length_app. lia.
Qed.

Lemma control_step_counted s s' new : control_step s s' new → counted s s' new.
Proof. intros []. split; auto. rewrite cs_frames0. simpl. lia. Qed.

Lemma streamed_counted s s' new : streamed s s' new → counted s s' new.
Proof. intros []. by split. Qed.

Lemma counted_emit s ev :
  frame_write_event ev = None →
  counted s {| self := self s; fs := fs s; trace := trace s ++ [ev] |} [ev].
Proof.
  intros Hf. split; simpl; auto. unfold frame_writes. simpl. rewrite Hf. simpl. lia.
Qed.

Lemma counted_emits s evs :
  frame_writes evs = [] →
  counted s {| self := self s; fs := fs s; trace := trace s ++ evs |} evs.
Proof. intros Hf. split; simpl; auto. rewrite Hf. simpl. lia. Qed.

Lemma receive_frames_counted E s :
  ∃ s' new, receive_frames E s = (Ok tt, s') ∧ counted s s' new ∧
            total_frames (self s') = total_frames (self s).
Proof.
  pose proof (receive_frames_spec E s) as H.
  destruct (ws_connect E (ws_url (self s)) 10) as [stream|e].
  - destruct H as (s1 & new & _ & Hst & H).
    assert (counted s (connected s) _) as H0 by (by apply counted_emits).
    apply streamed_counted in Hst as Hc.
    pose proof (counted_trans _ _ _ _ _ H0 Hc) as H01.
    destruct (resolve_for_write (fs s1) (cwd E) (metadata_path (self s1))) as [target|e].
    + eexists _, _. split; [exact H|]. split; [|apply Hst].
      eapply counted_trans; [exact H01|].
      split; simpl; [reflexivity|unfold frame_writes; simpl; lia|done|done].
    + eexists _, _. split; [exact H|]. split; [|apply Hst].
      eapply counted_trans; [exact H01|]. by apply counted_emits.
  - eexists _, _. split; [exact H|]. split; [|done]. by apply counted_emits.
Qed.

(** ** [main] *)

(** Creating directories leaves the files alone. *)
Lemma os_mkdir_files fs cwd p fs' : os_mkdir fs cwd p = Ok fs' → files fs' = files fs.
Proof.
  unfold os_mkdir. repeat case_match; try done. by intros [= <-].
Qed.

Lemma mkdir_exist_ok_files fs cwd p fs' : mkdir_exist_ok fs cwd p = Ok fs' → files fs' = files fs.
Proof.
  unfold mkdir_exist_ok. destruct (os_mkdir fs cwd p) as [fs1|e] eqn:H1.
  - intros [= <-]. by apply os_mkdir_files in H1.
  - destruct e; try done; destruct (is_dir _ _ _); try done; by intros [= <-].
Qed.

Lemma mkdir_parents_files fs cwd anch rparts fs' :
  mkdir_parents fs cwd anch rparts = Ok fs' → files fs' = files fs.
Proof.
  revert fs fs'. induction rparts as [|c rparts IH]; intros fs fs';
    cbn [mkdir_parents];
    match goal with |- context [os_mkdir fs cwd ?p] =>
      destruct (os_mkdir fs cwd p) as [fs1|e] eqn:H1;
        [intros [= <-]; by apply os_mkdir_files in H1|]
    end.
  - destruct e; try done; destruct (is_dir _ _ _); try done; by intros [= <-].
  - destruct e; try (destruct (is_dir _ _ _); try done; by intros [= <-]).
    destruct (mkdir_parents fs cwd anch rparts) as [fs2|e2] eqn:H2; [|done].
    intros H3%mkdir_exist_ok_files. rewrite H3. by apply IH.
Qed.

Lemma path_mkdir_files fs cwd p fs' : path_mkdir fs cwd p = Ok fs' → files fs' = files fs.
Proof. apply mkdir_parents_files. Qed.

#[local] Arguments initialize_backend : simpl never.
#[local] Arguments start_generation : simpl never.
#[local] Arguments receive_frames : simpl never.
#[local] Arguments __init__ : simpl never.
#[local] Arguments main_receive : simpl never.
#[local] Arguments main_generate : simpl never.
#[local] Arguments main_initialize : simpl never.

Lemma main_receive_spec E s :
  ∃ s' new, main_receive E s = (Ok Finished, s') ∧ counted s s' new ∧
            total_frames (self s') = total_frames (self s).
Proof.
  destruct (receive_frames_counted E s) as (s1 & new & H & Hc & Ht).
  unfold main_receive. run_M. rewrite H. run_M.
  eexists _, _. split; [done|]. split; [|done].
  rewrite <- !app_assoc. simpl.
  eapply counted_trans; [exact Hc|]. by apply counted_emits.
Qed.

(** When [main] stops in or right after the generation request, only the
    control phase has happened. *)
Lemma main_generate_stops E a s r s' :
  main_generate E a s = (r, s') → r ≠ Ok Finished →
  r = Ok GenerationFailed ∧ ∃ new, control_step s s' new.
Proof.
  unfold main_generate. intros H Hr.
  destruct (arg_skip_generate a); simpl in H.
  { destruct (main_receive_spec E s) as (? & ? & H' & _). congruence. }
  destruct (start_generation_control E (arg_duration a) (arg_step a)
              (optional_str (arg_start_time a)) s) as (b & s1 & new & H1 & Hc).
  run_M. rewrite H1 in H. destruct b; run_M.
  { destruct (main_receive_spec E {| self := self s1; fs := fs s1;
                                     trace := trace s1 ++ [Sleep 2] |})
      as (? & ? & H' & _). congruence. }
  simplify_eq. split; [done|]. eexists.
  eapply control_step_trans; [exact Hc|]. by apply control_step_emit.
Qed.

Lemma main_generate_counted E a s :
  ∃ x s' new, main_generate E a s = (Ok x, s') ∧ counted s s' new.
Proof.
  unfold main_generate. destruct (arg_skip_generate a); simpl.
  { destruct (main_receive_spec E s) as (s' & new & H' & Hc & _). eauto. }
  destruct (start_generation_control E (arg_duration a) (arg_step a)
              (optional_str (arg_start_time a)) s) as (b & s1 & new & H1 & Hc).
  apply control_step_counted in Hc.
  run_M. rewrite H1. destruct b; run_M.
  - destruct (main_receive_spec E {| self := self s1; fs := fs s1;
                                     trace := trace s1 ++ [Sleep 2] |})
      as (s' & new' & H' & Hc' & _).
    eexists _, _, _. split; [exact H'|].
    eapply counted_trans; [exact Hc|].
    eapply counted_trans; [|exact Hc']. by apply counted_emit.
  - eexists _, _, _. split; [done|].
    eapply counted_trans; [exact Hc|]. by apply counted_emit.
Qed.

Lemma main_initialize_stops E a s r s' :
  main_initialize E a s = (r, s') → r ≠ Ok Finished →
  ∃ new, control_step s s' new.
Proof.
  unfold main_initialize. intros H Hr.
  destruct (arg_skip_init a); simpl in H.
  { by destruct (main_generate_stops E a s r s' H Hr). }
  destruct (py_truthy (optional_str (arg_satellite_file a))); simpl in H.
  2:{ run_M. simplify_eq. eexists. by apply control_step_emit. }
  destruct (initialize_backend_control E (default "" (arg_satellite_file a)) PNone s)
    as (r1 & s1 & new & H1 & Hc & _).
  run_M. rewrite H1 in H. destruct r1 as [[]|e]; run_M.
  - apply main_generate_stops in H as [_ [new2 Hc2]]; [|done].
    eexists. eapply control_step_trans; [exact Hc|].
    eapply control_step_trans; [|exact Hc2]. by apply control_step_emit.
  - simplify_eq. eexists. eapply control_step_trans; [exact Hc|]. by apply control_step_emit.
  - simplify_eq. eauto.
Qed.

Lemma main_initialize_counted E a s r s' :
  main_initialize E a s = (r, s') → ∃ new, counted s s' new.
Proof.
  unfold main_initialize. intros H.
  destruct (arg_skip_init a); simpl in H.
  { destruct (main_generate_counted E a s) as (x & s2 & new & H2 & Hc). rewrite H2 in H.
    simplify_eq. eauto. }
  destruct (py_truthy (optional_str (arg_satellite_file a))); simpl in H.
  2:{ run_M. simplify_eq. eexists. by apply counted_emit. }
  destruct (initialize_backend_control E (default "" (arg_satellite_file a)) PNone s)
    as (r1 & s1 & new & H1 & Hc & _).
  apply control_step_counted in Hc.
  run_M. rewrite H1 in H. destruct r1 as [[]|e]; run_M.
  - destruct (main_generate_counted E a {| self := self s1; fs := fs s1;
                                           trace := trace s1 ++ [Sleep 1] |})
      as (x & s2 & new2 & H2 & Hc2).
    rewrite H2 in H. simplify_eq. eexists.
    eapply counted_trans; [exact Hc|].
    eapply counted_trans; [|exact Hc2]. by apply counted_emit.
  - simplify_eq. eexists. eapply counted_trans; [exact Hc|]. by apply counted_emit.
  - simplify_eq. eauto.
Qed.

Lemma main_unfold E a s :
  main E a s =
    match __init__ E (arg_server a) (arg_output a) s with
    | (Ok _, s1) => main_initialize E a s1
    | (Raise e, s1) => (Raise e, s1)
    end.
Proof. reflexivity. Qed.

(** Whenever [main] ends otherwise than after [receive_frames]: no
    connection was opened, no frame and no summary written; and if it
    returned, the counter is zero. *)
Lemma main_stops E a s r s' :
  main E a s = (r, s') → r ≠ Ok Finished →
  ∃ new, trace s' = trace s ++ new ∧
         connections_opened new = [] ∧ frame_writes new = [] ∧ summaries_written new = [] ∧
         files (fs s') = files (fs s) ∧
         (∀ x, r = Ok x → frames_received (self s') = 0).
Proof.
  rewrite main_unfold, init_spec. intros H Hr.
  destruct (path_mkdir (fs s) (cwd E) (Path (arg_output a))) as [fs1|e] eqn:Hmk.
  2:{ simplify_eq. exists []. simpl. rewrite app_nil_r. split_and!; done. }
  apply main_initialize_stops in H as [new [Ht Hf Hs Hc Hfs _ _ Hfr]]; [|done].
  simpl in *. eexists. rewrite Ht, <- app_assoc. split; [done|].
  rewrite connections_opened_app, frame_writes_app, summaries_written_app, Hf, Hs, Hc, Hfs.
  split_and!; try done. by apply path_mkdir_files in Hmk.
Qed.

(** At any return of [main], the counter is the number of frame events of
    the run. *)
Lemma main_counted E a s x s' :
  main E a s = (Ok x, s') →
  ∃ new, trace s' = trace s ++ new ∧
         frames_received (self s') = Z.of_nat (length (frame_writes new)).
Proof.
  rewrite main_unfold, init_spec. intros H.
  destruct (path_mkdir (fs s) (cwd E) (Path (arg_output a))) as [fs1|e]; [|done].
  apply main_initialize_counted in H as [new [Ht Hc _ _]].
  simpl in *. eexists. rewrite Ht, <- app_assoc. split; [done|].
  rewrite Hc, frame_writes_app. simpl. lia.
Qed.

(** ** [str.replace] and the scheme *)

Lemma replace_from_absent old new s :
  occurs old s = false → replace_from old new 0 s = s.
Proof.
  induction s as [|c s IH]; [done|]. cbn [occurs replace_from].
  intros [Hp Ho]%orb_false_iff. rewrite Hp. by rewrite IH.
Qed.

Lemma append_cons c s t : String c s +:+ t = String c (s +:+ t).
Proof. reflexivity. Qed.

Lemma prefix_empty s : String.prefix "" s = true.
Proof. by destruct s. Qed.

Lemma prefix_append p s : String.prefix p (p +:+ s) = true.
Proof.
  induction p as [|c p IH]; [apply prefix_empty|].
  rewrite append_cons. cbn [String.prefix]. by destruct (ascii_dec c c).
Qed.

Lemma replace_from_skip old new p s :
  replace_from old new (String.length p) (p +:+ s) = replace_from old new 0 s.
Proof.
  induction p as [|c p IH]; [done|].
  rewrite append_cons. cbn [String.length replace_from]. done.
Qed.

(** A match at the head is replaced and the scan resumes after it. *)
Lemma replace_from_match c old new s :
  replace_from (String c old) new 0 (String c old +:+ s) =
    new +:+ replace_from (String c old) new 0 s.
Proof.
  rewrite append_cons. cbn [replace_from].
  rewrite <- append_cons, prefix_append.
  cbn [String.length]. rewrite Nat.sub_1_r. cbn [Nat.pred].
  by rewrite replace_from_skip.
Qed.

Lemma strip_scheme_http host : strip_scheme ("http://" +:+ host) = strip_scheme host.
Proof. unfold strip_scheme, str_replace. by rewrite replace_from_match. Qed.

Lemma strip_scheme_https host : strip_scheme ("https://" +:+ host) = strip_scheme host.
Proof.
  unfold strip_scheme, str_replace.
  assert (replace_from "http://" "" 0 ("https://" +:+ host) =
          "https://" +:+ replace_from "http://" "" 0 host) as ->.
  { rewrite !append_cons. reflexivity. }
  by rewrite replace_from_match.
Qed.

Lemma strip_scheme_absent host :
  occurs "http://" host = false → occurs "https://" host = false → strip_scheme host = host.
Proof.
  intros H1 H2. unfold strip_scheme, str_replace.
  rewrite (replace_from_absent "http://" "" host H1).
  by rewrite (replace_from_absent "https://" "" host H2).
Qed.

(** * The claims *)

(** ** C1: the bytes on disk are the decoded payload *)

(** C1.  A frame message (type [frame], a text [filename], a [data] field
    that decodes to [payload]) that arrives while the loop is running, whose
    name the sink can open at [target], and after which no delivery writes
    that file again: once that pass is over, and still when the streaming
    loop ends, the file at [target] holds exactly [payload].  It still does
    when [receive_frames] returns, unless [target] is [metadata.txt] itself,
    which the summary then replaces. *)
Theorem frame_bytes_are_decoded_payload E pre post items name payload target s s1 :
  py_str_eq (dict_get items "type" PNone) "frame" = true →
  dict_get items "filename" PNone = PStr name →
  b64decode (dict_get items "data" PNone) = Ok payload →
  loop_passes E pre s = (Ok Continue, s1) →
  resolve_for_write (fs s1) (cwd E) (joinpath (output_dir (self s1)) (Path name)) = Ok target →
  Forall (λ ev, ∀ d, frame_write_of E s1 ev ≠ Some (target, d)) post →
  let msg := Message (Some (PDict items)) in
  files (fs (loop_iteration E msg s1).2) !! target = Some (Binary payload) ∧
  (∃ s', receive_loop E (pre ++ msg :: post) s = (Ok tt, s') ∧
         files (fs s') !! target = Some (Binary payload)) ∧
  (∀ s0, s = connected s0 →
     ws_connect E (ws_url (self s0)) 10 = Ok (pre ++ msg :: post) →
     resolve_for_write (fs s0) (cwd E) (metadata_path (self s0)) ≠ Ok target →
     files (fs (receive_frames E s0).2) !! target = Some (Binary payload)).
Proof.
  intros Htype Hname Hdec Hpre Hres Hpost msg.
  assert (loop_iteration E msg s1 =
    (Ok Continue,
     {| self := bump (self s1); fs := store (fs s1) target (Binary payload);
        trace := trace s1 ++ FrameWritten target payload ::
                   progress_lines (frames_received (self s1) + 1)
                                  (dict_get items "total" PNone) |})) as Hstep.
  { unfold msg. erewrite loop_iteration_frame; eauto.
    - by rewrite Hres.
    - by rewrite Hname. }
  assert (∃ s', receive_loop E (pre ++ msg :: post) s = (Ok tt, s') ∧
                files (fs s') !! target = Some (Binary payload)) as Hloop.
  { rewrite (receive_loop_app E pre _ s s1 Hpre), receive_loop_cons, Hstep.
    match goal with |- context [receive_loop E post ?s2] => set (s2' := s2) end.
    destruct (receive_loop_streamed E post s2') as (s' & new & Hrun & _).
    exists s'. split; [done|].
    pose proof (receive_loop_keeps_file E post s2' target) as Hk.
    rewrite Hrun in Hk. simpl in Hk. rewrite Hk.
    - apply lookup_insert_eq.
    - eapply Forall_impl; [exact Hpost|]. intros ev Hev d.
      by rewrite <- (frame_write_of_stable E s1 s2'). }
  split_and!; [|exact Hloop|].
  { rewrite Hstep. simpl. apply lookup_insert_eq. }
  intros s0 -> Hconn Hmeta. destruct Hloop as (s' & Hrun & Hfile).
  pose proof (receive_frames_spec E s0) as H. rewrite Hconn in H.
  destruct H as (s2 & new & Hrun2 & Hst & ->). rewrite Hrun in Hrun2. simplify_eq.
  destruct (resolve_for_write (fs s2) (cwd E) (metadata_path (self s2))) as [t|e] eqn:Hm;
    simpl; [|done].
  rewrite lookup_insert_ne; [done|]. intros ->. apply Hmeta.
  unfold metadata_path in *. rewrite (st_output_dir _ _ _ Hst) in Hm.
  eapply resolve_for_write_dirs; [|exact Hm]. apply (st_dirs _ _ _ Hst).
Qed.

Lemma frame_bytes_are_decoded_payload_witness :
  let first := frame_message 0 2 "f0.png" "t0" Example.hi in
  let second := frame_message 1 2 "f1.png" "t1" Example.yo in
  let E := Example.service Example.initialized (Example.generating 2)
             (Ok [first; second; complete_message 2]) in
  files (fs (receive_frames E Example.ready).2) !! ["srv"; "out"; "f1.png"]
    = Some (Binary ["y"%byte; "o"%byte]).
Proof.
  intros first second E.
  refine (proj2 (proj2 (frame_bytes_are_decoded_payload E [first] [complete_message 2]
                          [("type", PStr "frame"); ("index", PInt 1); ("total", PInt 2);
                           ("filename", PStr "f1.png"); ("timestamp", PStr "t1");
                           ("data", PStr Example.yo)]
                          "f1.png" ["y"%byte; "o"%byte] ["srv"; "out"; "f1.png"]
                          (connected Example.ready) _ _ _ _ _ _ _))
            Example.ready _ _ _).
  - reflexivity.
  - reflexivity.
  - reflexivity.
  - vm_compute. reflexivity.
  - vm_compute. reflexivity.
  - repeat constructor. intros d. vm_compute. discriminate.
  - reflexivity.
  - reflexivity.
  - vm_compute. discriminate.
Defined.

(** ** C2: a frame that does not decode *)

(** C2, as the code has it.  A frame message whose [data] is missing or
    does not decode ends the receive loop: the error is printed, nothing is
    written for it, and no later message is handled.  What was persisted and
    counted before it stays as it was, and [receive_frames] goes on to close
    the connection and write a summary that counts those frames only. *)
Theorem undecodable_frame_ends_loop E pre rest items e s s1 :
  py_str_eq (dict_get items "type" PNone) "frame" = true →
  b64decode (dict_get items "data" PNone) = Raise e →
  loop_passes E pre s = (Ok Continue, s1) →
  let msg := Message (Some (PDict items)) in
  receive_loop E (pre ++ msg :: rest) s =
    (Ok tt, {| self := self s1; fs := fs s1; trace := trace s1 ++ [Print (L_recv_error e)] |}) ∧
  (∀ s0, s = connected s0 →
     ws_connect E (ws_url (self s0)) 10 = Ok (pre ++ msg :: rest) →
     ∃ s' new,
       receive_frames E s0 = (Ok tt, s') ∧ trace s' = trace s1 ++ new ∧
       self s' = self s1 ∧ frame_writes new = [] ∧
       ∀ target sm, (target, sm) ∈ summaries_written new →
         sum_received sm = frames_received (self s1)).
Proof.
  intros Htype Hdec Hpre msg.
  assert (receive_loop E (pre ++ msg :: rest) s =
    (Ok tt, {| self := self s1; fs := fs s1;
               trace := trace s1 ++ [Print (L_recv_error e)] |})) as Hloop.
  { rewrite (receive_loop_app E pre _ s s1 Hpre), receive_loop_cons.
    unfold msg. by rewrite (loop_iteration_frame_undecodable E items Htype s1 e Hdec). }
  split; [exact Hloop|].
  intros s0 -> Hconn. pose proof (receive_frames_spec E s0) as H. rewrite Hconn in H.
  destruct H as (s2 & new2 & Hrun2 & _ & H). rewrite Hloop in Hrun2. simplify_eq.
  simpl in H.
  destruct (resolve_for_write (fs s1) (cwd E) (metadata_path (self s1))) as [target|e'].
  - eexists _, _. split; [exact H|]. simpl. rewrite <- app_assoc.
    split; [reflexivity|]. split; [done|]. split; [done|].
    intros t sm Hin. simpl in Hin. apply list_elem_of_singleton in Hin. by simplify_eq.
  - eexists _, _. split; [exact H|]. simpl. rewrite <- app_assoc.
    split; [reflexivity|]. split; [done|]. split; [done|].
    intros t sm Hin. simpl in Hin. by apply elem_of_nil in Hin.
Qed.

Lemma undecodable_frame_ends_loop_witness :
  let first := frame_message 0 3 "f0.png" "t0" Example.hi in
  let third := frame_message 2 3 "f2.png" "t2" Example.yo in
  let E := Example.service Example.initialized (Example.generating 3)
             (Ok [first; Example.frame_without_data; third; complete_message 3]) in
  ∃ s' new,
    receive_frames E Example.ready = (Ok tt, s') ∧
    frames_received (self s') = 1 ∧
    frame_writes (trace s') = [(["srv"; "out"; "f0.png"], ["h"%byte; "i"%byte])] ∧
    frame_writes new = [] ∧
    ∀ target sm, (target, sm) ∈ summaries_written new → sum_received sm = 1.
Proof.
  intros first third E.
  destruct (proj2 (undecodable_frame_ends_loop E [first] [third; complete_message 3]
                     [("type", PStr "frame"); ("index", PInt 1); ("total", PInt 3);
                      ("filename", PStr "f1.png"); ("timestamp", PStr "t1")]
                     TypeError (connected Example.ready)
                     (loop_passes E [first] (connected Example.ready)).2
                     eq_refl eq_refl eq_refl)
              Example.ready eq_refl eq_refl)
    as (s' & new & Hrun & Htrace & Hself & Hnone & Hsum).
  exists s', new. split_and!.
  - exact Hrun.
  - rewrite Hself. vm_compute. reflexivity.
  - rewrite Htrace, frame_writes_app, Hnone. vm_compute. reflexivity.
  - exact Hnone.
  - exact Hsum.
Defined.

(** The claim fails on this session: a frame, a frame without [data], a
    second good frame, then [complete].  The second good frame is not
    persisted and the summary counts one frame. *)
Lemma malformed_message_stops_session :
  let E := Example.service Example.initialized (Example.generating 3)
             (Ok [frame_message 0 3 "f0.png" "t0" Example.hi;
                  Example.frame_without_data;
                  frame_message 2 3 "f2.png" "t2" Example.yo;
                  complete_message 3]) in
  let s' := (main E Example.cli Example.boot).2 in
  files (fs s') !! ["srv"; "out"; "f0.png"] = Some (Binary ["h"%byte; "i"%byte]) ∧
  files (fs s') !! ["srv"; "out"; "f2.png"] = None ∧
  frames_received (self s') = 1 ∧
  sum_received <$> (summaries_written (trace s')).*2 = [1].
Proof. vm_compute. done. Qed.

(** ** C3: what the summary records as expected *)

(** C3, as the code has it.  The count carried by a [complete] message is
    printed and nothing else: that pass ends the loop and leaves the client
    as it was.  [total_frames] is what [start_generation] read from the
    answer to the generation request; [receive_frames] never assigns it, and
    a summary it writes records, as expected total, the value [total_frames]
    had when streaming began and, as received, the final counter. *)
Theorem summary_expected_is_control_phase_total E s :
  (∀ items, py_str_eq (dict_get items "type" PNone) "complete" = true →
     loop_iteration E (Message (Some (PDict items))) s =
       (Ok Break,
        {| self := self s; fs := fs s;
           trace := trace s ++
                      [Print (L_transfer_complete (dict_get items "total_frames" PNone))] |})) ∧
  (∀ duration step start_time status body,
     http_post E (generate_url (self s)) (generate_payload duration step start_time) 10
       = PostResponse status (Some (PDict body)) →
     (400 <=? status) && (status <? 600) = false →
     ∃ s', start_generation E duration step start_time s = (Ok true, s') ∧
           total_frames (self s') = dict_get body "total_frames" (PInt 0)) ∧
  (∃ s' new,
     receive_frames E s = (Ok tt, s') ∧ trace s' = trace s ++ new ∧
     total_frames (self s') = total_frames (self s) ∧
     ∀ target sm, (target, sm) ∈ summaries_written new →
       sum_expected sm = total_frames (self s) ∧
       sum_received sm = frames_received (self s')).
Proof.
  split_and!.
  { intros items Htype. destruct s as [c f t].
    unfold loop_iteration, recv_json, handle_message, py_get. run_M.
    destruct (dict_get items "type" PNone) as [| | | |ty| |]; try done.
    simpl in Htype. apply String.eqb_eq in Htype as ->. by run_M. }
  { intros duration step start_time status body Hreply Hstatus.
    destruct (start_generation_spec E duration step start_time s)
      as (s' & ls & Hrun & _ & _ & _ & _ & Htot & _).
    rewrite Hreply in Hrun, Htot. unfold reply_failure in Hrun, Htot.
    rewrite Hstatus in Hrun, Htot. simpl in Hrun, Htot. eauto. }
  pose proof (receive_frames_spec E s) as H.
  destruct (ws_connect E (ws_url (self s)) 10) as [stream|e].
  - destruct H as (s1 & new & _ & Hst & H).
    pose proof (st_trace _ _ _ Hst) as Ht. pose proof (st_total_frames _ _ _ Hst) as Htot.
    pose proof (st_summaries _ _ _ Hst) as Hsum. simpl in Ht, Htot.
    destruct (resolve_for_write (fs s1) (cwd E) (metadata_path (self s1))) as [target|e].
    + eexists _, _. split; [exact H|]. simpl. rewrite Ht, <- !app_assoc.
      split; [reflexivity|]. split; [done|].
      intros t sm. rewrite !summaries_written_app, Hsum. simpl.
      intros Hin%list_elem_of_singleton. simplify_eq. done.
    + eexists _, _. split; [exact H|]. simpl. rewrite Ht, <- !app_assoc.
      split; [reflexivity|]. split; [done|].
      intros t sm. rewrite !summaries_written_app, Hsum. simpl. by intros ?%elem_of_nil.
  - eexists _, _. split; [exact H|]. simpl. split; [reflexivity|]. split; [done|].
    intros t sm. simpl. by intros ?%elem_of_nil.
Qed.

Lemma summary_expected_is_control_phase_total_witness :
  let E := Example.service Example.initialized (Example.generating 5)
             (Ok [frame_message 0 3 "f0.png" "t0" Example.hi; complete_message 3]) in
  loop_iteration E (complete_message 3) Example.ready =
    (Ok Break,
     {| self := self Example.ready; fs := fs Example.ready;
        trace := trace Example.ready ++ [Print (L_transfer_complete (PInt 3))] |}) ∧
  ∃ s', start_generation E 3600 10 PNone Example.ready = (Ok true, s') ∧
        total_frames (self s') = PInt 5.
Proof.
  intros E.
  pose proof (summary_expected_is_control_phase_total E Example.ready) as (Hc & Hg & _).
  split.
  - apply (Hc [("type", PStr "complete"); ("total_frames", PInt 3)]). reflexivity.
  - apply (Hg 3600 10 PNone 200 [("total_frames", PInt 5)]).
    + reflexivity.
    + reflexivity.
Defined.

(** The claim fails on this session: the control phase announces 5 frames,
    3 frames arrive, [complete] says 3; the summary records 3 received and 5
    expected. *)
Lemma complete_count_is_not_recorded :
  let E := Example.service Example.initialized (Example.generating 5)
             (Ok [frame_message 0 3 "f0.png" "t0" Example.hi;
                  frame_message 1 3 "f1.png" "t1" Example.yo;
                  frame_message 2 3 "f2.png" "t2" Example.hi;
                  complete_message 3]) in
  let s' := (main E Example.cli Example.boot).2 in
  (main E Example.cli Example.boot).1 = Ok Finished ∧
  (summaries_written (trace s')).*2 =
    [{| sum_received := 3; sum_expected := PInt 5;
        sum_directory := PurePath true ["srv"; "out"] |}] ∧
  files (fs s') !! ["srv"; "out"; "metadata.txt"] =
    Some (MetadataText {| sum_received := 3; sum_expected := PInt 5;
                          sum_directory := PurePath true ["srv"; "out"] |}).
Proof. vm_compute. done. Qed.

(** ** C4: the file name of a frame *)

(** C4, as the code has it.  The name of a frame is not checked against the
    output root.  For a frame with a text name and a payload that decodes,
    the bytes go to whatever location [output_dir / filename] resolves to,
    under the output root or not, and the frame is counted as received; the
    name is refused only when the sink cannot open that location, and then
    the error is printed and the loop ends with nothing written. *)
Theorem frame_name_is_not_validated E items name payload s :
  py_str_eq (dict_get items "type" PNone) "frame" = true →
  dict_get items "filename" PNone = PStr name →
  b64decode (dict_get items "data" PNone) = Ok payload →
  let msg := Message (Some (PDict items)) in
  let location := resolve_for_write (fs s) (cwd E) (joinpath (output_dir (self s)) (Path name)) in
  (∀ target, location = Ok target →
     ∃ lines, loop_iteration E msg s =
       (Ok Continue,
        {| self := bump (self s); fs := store (fs s) target (Binary payload);
           trace := trace s ++ FrameWritten target payload :: lines |})
       ∧ Forall (λ ev, ∀ e, ev ≠ Print (L_recv_error e)) lines) ∧
  (∀ e, location = Raise e →
     loop_iteration E msg s =
       (Ok Break,
        {| self := self s; fs := fs s; trace := trace s ++ [Print (L_recv_error e)] |})).
Proof.
  intros Htype Hname Hdec msg location.
  pose proof (loop_iteration_frame E items Htype s payload
                (joinpath (output_dir (self s)) (Path name)) Hdec) as Hstep.
  rewrite Hname in Hstep. specialize (Hstep eq_refl).
  fold location msg in Hstep. split.
  - intros target Hl. rewrite Hl in Hstep. eexists. split; [exact Hstep|].
    unfold progress_lines. case_match; repeat constructor; done.
  - intros e Hl. by rewrite Hl in Hstep.
Qed.

Lemma frame_name_is_not_validated_witness :
  let E := Example.service Example.initialized (Example.generating 1) (Ok []) in
  let msg := frame_message 0 1 "../../etc/passwd" "t0" Example.hi in
  inside ["srv"; "out"] ["etc"; "passwd"] = false ∧
  ∃ lines, loop_iteration E msg Example.ready =
    (Ok Continue,
     {| self := bump (self Example.ready);
        fs := store (fs Example.ready) ["etc"; "passwd"] (Binary ["h"%byte; "i"%byte]);
        trace := trace Example.ready ++
                   FrameWritten ["etc"; "passwd"] ["h"%byte; "i"%byte] :: lines |})
    ∧ Forall (λ ev, ∀ e, ev ≠ Print (L_recv_error e)) lines.
Proof.
  intros E msg. split; [by vm_compute|].
  refine (proj1 (frame_name_is_not_validated E _ "../../etc/passwd" ["h"%byte; "i"%byte]
                   Example.ready _ _ _) _ _).
  - reflexivity.
  - reflexivity.
  - reflexivity.
  - vm_compute. reflexivity.
Defined.

(** The claim fails on this session: the frame named [../../etc/passwd] is
    written to [/etc/passwd], outside the output root [/srv/out], it is
    counted as received and no error is reported. *)
Lemma escaping_name_is_written_outside_root :
  let E := Example.service Example.initialized (Example.generating 1)
             (Ok [frame_message 0 1 "../../etc/passwd" "t0" Example.hi;
                  complete_message 1]) in
  let s' := (main E Example.cli Example.boot).2 in
  output_dir (self s') = Path "out" ∧
  walk (fs s') (cwd E) (parts (output_dir (self s'))) = Ok ["srv"; "out"] ∧
  files (fs s') !! ["etc"; "passwd"] = Some (Binary ["h"%byte; "i"%byte]) ∧
  inside ["srv"; "out"] ["etc"; "passwd"] = false ∧
  frames_received (self s') = 1 ∧
  Forall (λ ev, ∀ e, ev ≠ Print (L_recv_error e)) (trace s').
Proof. vm_compute. split_and!; try done. repeat constructor; done. Qed.

(** ** C5: when the summary is written *)

(** C5, as the code has it.  [receive_frames] always returns.  If the
    connection opens and [metadata.txt] can be opened in the output
    directory, it writes exactly one summary, whichever way the loop ended,
    holding the counter, [total_frames] and the absolute output directory.
    If the connection does not open, it writes none.  And whenever [main]
    ends otherwise than after [receive_frames] (a failed control phase, a
    missing satellite file, an exception) no summary is written at all. *)
Theorem summary_written_once_stream_opened E s :
  (∃ s' new,
     receive_frames E s = (Ok tt, s') ∧ trace s' = trace s ++ new ∧
     summaries_written new =
       match ws_connect E (ws_url (self s)) 10,
             resolve_for_write (fs s) (cwd E) (metadata_path (self s)) with
       | Ok _, Ok target => [(target, current_summary E (self s'))]
       | _, _ => []
       end) ∧
  (∀ a r s', main E a s = (r, s') → r ≠ Ok Finished →
     ∃ new, trace s' = trace s ++ new ∧ summaries_written new = []).
Proof.
  split.
  - pose proof (receive_frames_spec E s) as H.
    destruct (ws_connect E (ws_url (self s)) 10) as [stream|e].
    + destruct H as (s1 & new & _ & Hst & H).
      pose proof (st_trace _ _ _ Hst) as Ht. pose proof (st_summaries _ _ _ Hst) as Hsum.
      pose proof (st_dirs _ _ _ Hst) as Hd. pose proof (st_output_dir _ _ _ Hst) as Ho.
      simpl in Ht, Hd, Ho.
      pose proof (resolve_for_write_dirs_eq (fs s1) (fs s) (cwd E) (metadata_path (self s1)) Hd)
        as Hres.
      unfold metadata_path in *. rewrite Ho in *.
      destruct (resolve_for_write (fs s1) _ _) as [target|e].
      * rewrite Hres. eexists _, _. split; [exact H|]. simpl. rewrite Ht, <- !app_assoc.
        split; [reflexivity|]. by rewrite !summaries_written_app, Hsum.
      * destruct Hres as [e' ->]. eexists _, _. split; [exact H|]. simpl.
        rewrite Ht, <- !app_assoc. split; [reflexivity|].
        by rewrite !summaries_written_app, Hsum.
    + eexists _, _. split; [exact H|]. simpl. split; [reflexivity|]. done.
  - intros a r s' H Hr. destruct (main_stops E a s r s' H Hr) as (new & ? & ? & ? & ? & _).
    eauto.
Qed.

Lemma summary_written_once_stream_opened_witness :
  let E := Example.service (PostResponse 500 None) (Example.generating 5) (Ok []) in
  ∃ new, trace (main E Example.cli Example.boot).2 = trace Example.boot ++ new ∧
         summaries_written new = [].
Proof.
  intros E.
  refine (proj2 (summary_written_once_stream_opened E Example.boot) Example.cli
            (main E Example.cli Example.boot).1 (main E Example.cli Example.boot).2 _ _).
  - vm_compute. reflexivity.
  - vm_compute. discriminate.
Defined.

(** The claim fails on these sessions: initialization answered with HTTP
    500, and a stream that cannot be opened.  Each ends without any summary
    record, in the trace or on disk. *)
Lemma no_summary_without_stream :
  let failing := Example.service (PostResponse 500 None) (Example.generating 5) (Ok []) in
  let closed := Example.service Example.initialized (Example.generating 5)
                  (Raise (WebSocketException "connection refused")) in
  let s1 := (main failing Example.cli Example.boot).2 in
  let s2 := (main closed Example.cli Example.boot).2 in
  ((main failing Example.cli Example.boot).1 = Ok InitializationFailed ∧
   summaries_written (trace s1) = [] ∧ files (fs s1) = ∅) ∧
  ((main closed Example.cli Example.boot).1 = Ok Finished ∧
   summaries_written (trace s2) = [] ∧ files (fs s2) = ∅).
Proof. vm_compute. done. Qed.

(** ** C6: what [initialize_backend] lets through *)

(** C6, as the code has it.  Once the satellite file has been read and
    parsed, [initialize_backend] returns [True] or [False] and never raises,
    whatever the request does: it returns [False] after printing the cause
    for a transport error, a 4xx/5xx status, a body that is not JSON or not
    an object, and [True] otherwise; the client and the sink are untouched.
    The read of the satellite file precedes the [try]: if it fails, the
    exception leaves [initialize_backend]. *)
Theorem initialize_backend_catches_request_errors E file config s :
  (∀ satellites, read_json E file = Ok satellites →
     let reply := http_post E (initialize_url (self s))
                    (initialize_payload satellites config) 30 in
     ∃ s', initialize_backend E file config s =
             (Ok (bool_decide (reply_failure reply = None)), s') ∧
           self s' = self s ∧ fs s' = fs s ∧
           ∀ e, reply_failure reply = Some e →
                last (trace s') = Some (Print (L_init_failed e))) ∧
  (∀ e, read_json E file = Raise e →
     (initialize_backend E file config s).1 = Raise e).
Proof.
  split.
  - intros sat Hr reply.
    destruct (initialize_backend_spec E file config s sat Hr) as (s' & ls & H & Hs & Hf & Ht).
    exists s'. split_and!; try done.
    intros e He. fold reply in Ht. rewrite He in Ht. rewrite Ht, !app_assoc. apply last_snoc.
  - intros e Hr. by rewrite (initialize_backend_read_error E file config s e Hr).
Qed.

Lemma initialize_backend_catches_request_errors_witness :
  let E := Example.service (PostResponse 500 None) (Example.generating 5) (Ok []) in
  ∃ s', initialize_backend E "sat.json" PNone Example.ready = (Ok false, s') ∧
        self s' = self Example.ready ∧ fs s' = fs Example.ready ∧
        last (trace s') = Some (Print (L_init_failed (HTTPError 500))).
Proof.
  intros E.
  destruct (proj1 (initialize_backend_catches_request_errors E "sat.json" PNone Example.ready)
              (PList []) eq_refl) as (s' & Hrun & Hself & Hfs & Hlast).
  exists s'. split_and!; [exact Hrun|exact Hself|exact Hfs|exact (Hlast _ eq_refl)].
Defined.

(** The claim fails on this call: the satellite file does not exist, and
    [FileNotFoundError] leaves [initialize_backend] (and [main]). *)
Lemma missing_satellite_file_raises :
  let E := Example.service Example.initialized (Example.generating 5) (Ok []) in
  let a := {| arg_server := "http://example.org"; arg_output := "out";
              arg_satellite_file := Some "missing.json"; arg_duration := 3600;
              arg_step := 10; arg_start_time := None; arg_skip_init := false;
              arg_skip_generate := false |} in
  (initialize_backend E "missing.json" PNone Example.ready).1 = Raise FileNotFoundError ∧
  (main E a Example.boot).1 = Raise FileNotFoundError.
Proof. vm_compute. done. Qed.

(** ** C7: a failed control phase *)

(** C7.  When [initialize_backend] returns [False], [main] takes its
    "Initialization failed" return; when [start_generation] returns [False],
    its "Failed to start generation" return.  At either return no
    connection has been opened, no frame has been written and
    [frames_received] is zero. *)
Theorem control_failure_skips_streaming E a :
  (∀ s s1, arg_skip_init a = false →
     py_truthy (optional_str (arg_satellite_file a)) = true →
     initialize_backend E (default "" (arg_satellite_file a)) PNone s = (Ok false, s1) →
     (main_initialize E a s).1 = Ok InitializationFailed) ∧
  (∀ s s1, arg_skip_generate a = false →
     start_generation E (arg_duration a) (arg_step a) (optional_str (arg_start_time a)) s
       = (Ok false, s1) →
     (main_generate E a s).1 = Ok GenerationFailed) ∧
  (∀ s x s', main E a s = (Ok x, s') →
     x = InitializationFailed ∨ x = GenerationFailed →
     ∃ new, trace s' = trace s ++ new ∧
            connections_opened new = [] ∧
            frame_writes new = [] ∧
            frames_received (self s') = 0).
Proof.
  split_and!.
  - intros s s1 Hskip Hfile Hinit. unfold main_initialize.
    rewrite Hskip, Hfile. simpl. run_M. by rewrite Hinit.
  - intros s s1 Hskip Hgen. unfold main_generate.
    rewrite Hskip. simpl. run_M. by rewrite Hgen.
  - intros s x s' H Hx.
    destruct (main_stops E a s (Ok x) s' H) as (new & Ht & Hc & Hf & _ & _ & H0).
    { intros [= ->]. by destruct Hx. }
    exists new. split_and!; try done. by apply (H0 x).
Qed.

Lemma control_failure_skips_streaming_witness :
  let E := Example.service (PostResponse 500 None) (Example.generating 5)
             (Ok [frame_message 0 1 "f0.png" "t0" Example.hi]) in
  ∃ new, trace (main E Example.cli Example.boot).2 = trace Example.boot ++ new ∧
         connections_opened new = [] ∧
         frame_writes new = [] ∧
         frames_received (self (main E Example.cli Example.boot).2) = 0.
Proof.
  intros E.
  refine (proj2 (proj2 (control_failure_skips_streaming E Example.cli))
            Example.boot InitializationFailed _ _ _).
  - vm_compute. reflexivity.
  - left. reflexivity.
Defined.

(** ** C8: the counter and the frames written *)

(** C8.  [__init__] sets [frames_received] to zero.  During the loop the
    counter never decreases, and after any number of passes it has grown by
    exactly the number of frames written in those passes.  The control
    phase leaves it alone, so that whenever [main] returns, the counter is
    the number of frame-write events of the whole run. *)
Theorem frames_received_counts_frames_written E :
  (∀ url out s s', __init__ E url out s = (Ok tt, s') →
     frames_received (self s') = 0) ∧
  (∀ evs j s,
     let sj := (loop_passes E (take j evs) s).2 in
     let s' := (loop_passes E evs s).2 in
     frames_received (self s) ≤ frames_received (self sj) ≤ frames_received (self s') ∧
     ∃ new, trace sj = trace s ++ new ∧
            frames_received (self sj) =
              frames_received (self s) + Z.of_nat (length (frame_writes new))) ∧
  (∀ a s x s', main E a s = (Ok x, s') →
     ∃ new, trace s' = trace s ++ new ∧
            frames_received (self s') = Z.of_nat (length (frame_writes new))).
Proof.
  split_and!.
  - intros url out s s'. rewrite init_spec.
    destruct (path_mkdir _ _ _); [|done]. by intros [= <-].
  - intros evs j s sj s'.
    destruct (loop_passes_streamed E (take j evs) s) as (c & s1 & new1 & H1 & Hs1).
    assert (frames_received (self s1) ≤ frames_received (self s')) as Hle.
    { unfold s'. rewrite <- (take_drop j evs) at 1. rewrite loop_passes_app, H1.
      destruct c; simpl.
      - destruct (loop_passes_streamed E (drop j evs) s1) as (c2 & s2 & new2 & H2 & Hs2).
        rewrite H2. simpl. rewrite (st_counter _ _ _ Hs2). lia.
      - lia. }
    unfold sj. rewrite H1. simpl. split.
    + pose proof (st_counter _ _ _ Hs1). lia.
    + exists new1. split; [apply Hs1|apply Hs1].
  - intros a s x s'. apply main_counted.
Qed.

Lemma frames_received_counts_frames_written_witness :
  let E := Example.service Example.initialized (Example.generating 2)
             (Ok [frame_message 0 2 "f0.png" "t0" Example.hi;
                  frame_message 1 2 "f1.png" "t1" Example.yo;
                  complete_message 2]) in
  (main E Example.cli Example.boot).1 = Ok Finished ∧
  ∃ new, trace (main E Example.cli Example.boot).2 = trace Example.boot ++ new ∧
         frames_received (self (main E Example.cli Example.boot).2)
           = Z.of_nat (length (frame_writes new)).
Proof.
  intros E. split; [vm_compute; reflexivity|].
  refine (proj2 (proj2 (frames_received_counts_frames_written E))
            Example.cli Example.boot Finished _ _).
  vm_compute. reflexivity.
Defined.

(** ** C9: the same frame delivered twice *)

(** C9.  A frame that decodes and whose name the sink can open, delivered
    twice in a row: both passes succeed, the second leaves the sink as the
    first left it, there is one file under that name and it holds the
    decoded payload.  (Each delivery is counted.) *)
Theorem redelivery_overwrites_same_file E items name payload target s :
  py_str_eq (dict_get items "type" PNone) "frame" = true →
  dict_get items "filename" PNone = PStr name →
  b64decode (dict_get items "data" PNone) = Ok payload →
  resolve_for_write (fs s) (cwd E) (joinpath (output_dir (self s)) (Path name)) = Ok target →
  let msg := Message (Some (PDict items)) in
  ∃ s1 s2,
    loop_passes E [msg] s = (Ok Continue, s1) ∧
    loop_passes E [msg; msg] s = (Ok Continue, s2) ∧
    fs s2 = fs s1 ∧
    files (fs s2) !! target = Some (Binary payload) ∧
    dom (files (fs s2)) = {[ target ]} ∪ dom (files (fs s)) ∧
    (∀ t, t ≠ target → files (fs s2) !! t = files (fs s) !! t) ∧
    frames_received (self s2) = frames_received (self s) + 2.
Proof.
  intros Htype Hname Hdec Hres msg.
  assert (∀ s0, resolve_for_write (fs s0) (cwd E)
                  (joinpath (output_dir (self s0)) (Path name)) = Ok target →
    loop_iteration E msg s0 =
      (Ok Continue,
       {| self := bump (self s0); fs := store (fs s0) target (Binary payload);
          trace := trace s0 ++ FrameWritten target payload ::
                     progress_lines (frames_received (self s0) + 1)
                                    (dict_get items "total" PNone) |})) as Hstep.
  { intros s0 H0. unfold msg. erewrite loop_iteration_frame; eauto.
    - by rewrite H0.
    - by rewrite Hname. }
  pose proof (Hstep s Hres) as H1.
  match type of H1 with _ = (_, ?st) => set (s1 := st) in * end.
  assert (resolve_for_write (fs s1) (cwd E)
            (joinpath (output_dir (self s1)) (Path name)) = Ok target) as Hres1.
  { eapply resolve_for_write_dirs; [|exact Hres]. done. }
  pose proof (Hstep s1 Hres1) as H2.
  match type of H2 with _ = (_, ?st) => set (s2 := st) in * end.
  exists s1, s2. rewrite !loop_passes_cons, H1, loop_passes_cons, H2. simpl.
  split_and!; try done.
  - unfold store. simpl. f_equal. apply insert_insert_eq.
  - rewrite insert_insert_eq. apply lookup_insert_eq.
  - rewrite insert_insert_eq. apply dom_insert_L.
  - intros t Ht. by rewrite insert_insert_eq, lookup_insert_ne.
  - lia.
Qed.

Lemma redelivery_overwrites_same_file_witness :
  let E := Example.service Example.initialized (Example.generating 1) (Ok []) in
  let msg := frame_message 0 1 "f0.png" "t0" Example.hi in
  ∃ s1 s2,
    loop_passes E [msg] Example.ready = (Ok Continue, s1) ∧
    loop_passes E [msg; msg] Example.ready = (Ok Continue, s2) ∧
    fs s2 = fs s1 ∧
    files (fs s2) !! ["srv"; "out"; "f0.png"] = Some (Binary ["h"%byte; "i"%byte]) ∧
    dom (files (fs s2)) = {[ ["srv"; "out"; "f0.png"] ]} ∪ dom (files (fs Example.ready)) ∧
    (∀ t, t ≠ ["srv"; "out"; "f0.png"] →
       files (fs s2) !! t = files (fs Example.ready) !! t) ∧
    frames_received (self s2) = frames_received (self Example.ready) + 2.
Proof.
  intros E msg.
  apply (redelivery_overwrites_same_file E _ "f0.png" ["h"%byte; "i"%byte]).
  - reflexivity.
  - reflexivity.
  - reflexivity.
  - vm_compute. reflexivity.
Defined.

(** ** C10: the endpoints *)

(** C10, as the code has it.  [__init__] removes every occurrence of
    [http://] and then every occurrence of [https://] from its argument, not
    only a leading one.  So whether the caller writes the server as [host],
    [http://host] or [https://host], the same [server_url] is stored, with
    the leading scheme gone; it is [host] itself when no scheme text occurs
    inside [host], and what the two replacements make of [host] otherwise.
    The control requests go to [https://] followed by the stored value and
    the path, the stream to [wss://] followed by it and [/ws/frames]. *)
Theorem endpoints_use_fixed_secure_scheme E scheme host out s :
  scheme ∈ ["http://"; "https://"; ""] →
  let c := self (__init__ E (scheme +:+ host) out s).2 in
  server_url c = strip_scheme host ∧
  (occurs "http://" host = false → occurs "https://" host = false → server_url c = host) ∧
  initialize_url c = "https://" +:+ server_url c +:+ "/api/initialize" ∧
  generate_url c = "https://" +:+ server_url c +:+ "/api/generate" ∧
  ws_url c = "wss://" +:+ server_url c +:+ "/ws/frames" ∧
  (∀ s0 duration step start_time,
     HttpPost (generate_url (self s0)) (generate_payload duration step start_time) 10
       ∈ trace (start_generation E duration step start_time s0).2) ∧
  (∀ s0 file config satellites, read_json E file = Ok satellites →
     HttpPost (initialize_url (self s0)) (initialize_payload satellites config) 30
       ∈ trace (initialize_backend E file config s0).2) ∧
  (∀ s0, WsConnect (ws_url (self s0)) 10 ∈ trace (receive_frames E s0).2).
Proof.
  intros Hscheme c.
  assert (server_url c = strip_scheme host) as Hurl.
  { unfold c. rewrite init_spec.
    assert (strip_scheme (scheme +:+ host) = strip_scheme host) as <-.
    { set_unfold. destruct Hscheme as [->|[->|[->|[]]]];
        auto using strip_scheme_http, strip_scheme_https. }
    by destruct (path_mkdir _ _ _). }
  split_and!; try done.
  - intros H1 H2. rewrite Hurl. by apply strip_scheme_absent.
  - clear. intros s0 duration step start_time.
    destruct (start_generation_spec E duration step start_time s0)
      as (s' & ls & Hrun & _ & _ & _ & _ & _ & Ht).
    rewrite Hrun. simpl. rewrite Ht. set_solver.
  - clear. intros s0 file config satellites Hr.
    destruct (initialize_backend_spec E file config s0 satellites Hr)
      as (s' & ls & Hrun & _ & _ & Ht).
    rewrite Hrun. simpl. rewrite Ht. set_solver.
  - clear. intros s0. pose proof (receive_frames_spec E s0) as H.
    destruct (ws_connect E (ws_url (self s0)) 10).
    + destruct H as (s1 & new & _ & Hst & Hrun). rewrite Hrun.
      pose proof (st_trace _ _ _ Hst) as Ht. simpl in Ht.
      destruct (resolve_for_write _ _ _); simpl; rewrite Ht; set_solver.
    + rewrite H. simpl. set_solver.
Qed.

Lemma endpoints_use_fixed_secure_scheme_witness :
  let E := Example.service Example.initialized (Example.generating 2) (Ok []) in
  let c := self (__init__ E ("http://" +:+ "example.org:8443") "out" Example.boot).2 in
  server_url c = "example.org:8443" ∧
  initialize_url c = "https://example.org:8443/api/initialize" ∧
  generate_url c = "https://example.org:8443/api/generate" ∧
  ws_url c = "wss://example.org:8443/ws/frames".
Proof.
  intros E c.
  destruct (endpoints_use_fixed_secure_scheme E "http://" "example.org:8443" "out" Example.boot)
    as (_ & Hhost & Hi & Hg & Hw & _).
  { constructor. }
  fold c in Hhost, Hi, Hg, Hw.
  rewrite Hi, Hg, Hw, Hhost; [done|reflexivity|reflexivity].
Defined.

(** The claim fails on this argument: after the leading [http://] comes
    [hthttp://tp://example.org].  Removing the [http://] inside it leaves
    [http://example.org], which is what is stored: not the argument without
    its leading scheme, and itself starting with a scheme.  The requests go
    to [https://http://example.org/...]. *)
Lemma scheme_text_inside_host_is_removed_too :
  let E := Example.service Example.initialized (Example.generating 2) (Ok []) in
  let host := "hthttp://tp://example.org" in
  let c := self (__init__ E ("http://" +:+ host) "out" Example.boot).2 in
  server_url c = "http://example.org" ∧
  server_url c ≠ host ∧
  String.prefix "http://" (server_url c) = true ∧
  initialize_url c = "https://http://example.org/api/initialize" ∧
  initialize_url c ≠ "https://" +:+ host +:+ "/api/initialize" ∧
  generate_url c = "https://http://example.org/api/generate" ∧
  ws_url c = "wss://http://example.org/ws/frames" ∧
  ws_url c ≠ "wss://" +:+ host +:+ "/ws/frames".
Proof. vm_compute. split_and!; done. Qed.

(** * Further properties of the client *)

(** ** Messages that are not frames *)

(** X1.  A [status] message whose [data] is an object, or is absent, prints
    its [status] entry (["unknown"] when there is none) and the loop goes
    on with the client and the sink untouched.  A [status] message whose
    [data] is anything else ends the loop with an [AttributeError]. *)
Theorem status_message_handling E items s :
  py_str_eq (dict_get items "type" PNone) "status" = true →
  let msg := Message (Some (PDict items)) in
  (∀ inner, dict_get items "data" (PDict []) = PDict inner →
     loop_iteration E msg s =
       (Ok Continue,
        {| self := self s; fs := fs s;
           trace := trace s ++
                      [Print (L_status (dict_get inner "status" (PStr "unknown")))] |})) ∧
  ((∀ inner, dict_get items "data" (PDict []) ≠ PDict inner) →
     loop_iteration E msg s =
       (Ok Break,
        {| self := self s; fs := fs s;
           trace := trace s ++ [Print (L_recv_error AttributeError)] |})).
Proof.
  intros Htype msg. destruct s as [c f t].
  unfold msg, loop_iteration, recv_json, handle_message, py_get. run_M. rewrite Htype.
  split.
  - intros inner ->. by run_M.
  - intros Hno. destruct (dict_get items "data" (PDict [])) eqn:Hd; run_M; try done.
    by destruct (Hno items0).
Qed.

Lemma status_message_handling_witness :
  let E := Example.service Example.initialized (Example.generating 1) (Ok []) in
  loop_iteration E (Message (Some (PDict [("type", PStr "status")]))) Example.ready =
    (Ok Continue,
     {| self := self Example.ready; fs := fs Example.ready;
        trace := trace Example.ready ++ [Print (L_status (PStr "unknown"))] |}) ∧
  loop_iteration E (Message (Some (PDict [("type", PStr "status"); ("data", PStr "busy")])))
    Example.ready =
    (Ok Break,
     {| self := self Example.ready; fs := fs Example.ready;
        trace := trace Example.ready ++ [Print (L_recv_error AttributeError)] |}).
Proof.
  intros E. split.
  - apply (proj1 (status_message_handling E [("type", PStr "status")] Example.ready eq_refl) []).
    reflexivity.
  - apply (proj2 (status_message_handling E [("type", PStr "status"); ("data", PStr "busy")]
                    Example.ready eq_refl)).
    intros inner. vm_compute. discriminate.
Defined.

(** X2.  A message that is a JSON object whose [type] is none of [status],
    [frame], [complete] (or is missing) is dropped without a trace: the loop
    goes on in exactly the state it was in. *)
Theorem unknown_message_type_is_ignored E items s :
  py_str_eq (dict_get items "type" PNone) "status" = false →
  py_str_eq (dict_get items "type" PNone) "frame" = false →
  py_str_eq (dict_get items "type" PNone) "complete" = false →
  loop_iteration E (Message (Some (PDict items))) s = (Ok Continue, s).
Proof.
  intros H1 H2 H3. destruct s as [c f t].
  unfold loop_iteration, recv_json, handle_message, py_get. run_M.
  by rewrite H1, H2, H3.
Qed.

Lemma unknown_message_type_is_ignored_witness :
  let E := Example.service Example.initialized (Example.generating 1) (Ok []) in
  loop_iteration E (Message (Some (PDict [("kind", PStr "frame")]))) Example.ready
    = (Ok Continue, Example.ready) ∧
  loop_iteration E (Message (Some (PDict [("type", PStr "Frame")]))) Example.ready
    = (Ok Continue, Example.ready).
Proof.
  intros E. split.
  - apply unknown_message_type_is_ignored; reflexivity.
  - apply unknown_message_type_is_ignored; reflexivity.
Defined.

(** X3.  A delivery that is not JSON, or is JSON but not an object, ends the
    loop: the error ([JSONDecodeError], [AttributeError]) is printed, the
    client and the sink stay as they were, and whatever follows in the
    stream is never read. *)
Theorem unreadable_message_ends_loop E rest s :
  receive_loop E (Message None :: rest) s =
    (Ok tt, {| self := self s; fs := fs s;
               trace := trace s ++ [Print (L_recv_error JSONDecodeError)] |}) ∧
  (∀ data, (∀ items, data ≠ PDict items) →
     receive_loop E (Message (Some data) :: rest) s =
       (Ok tt, {| self := self s; fs := fs s;
                  trace := trace s ++ [Print (L_recv_error AttributeError)] |})).
Proof.
  split.
  - rewrite receive_loop_cons. by destruct s.
  - intros data Hno. rewrite receive_loop_cons. destruct s as [c f t].
    unfold loop_iteration, recv_json, handle_message, py_get. run_M.
    destruct data; run_M; try done. by destruct (Hno items).
Qed.

Lemma unreadable_message_ends_loop_witness :
  let E := Example.service Example.initialized (Example.generating 1) (Ok []) in
  receive_loop E [Message (Some (PList [PStr "frame"]));
                  frame_message 0 1 "f0.png" "t0" Example.hi] Example.ready =
    (Ok tt, {| self := self Example.ready; fs := fs Example.ready;
               trace := trace Example.ready ++ [Print (L_recv_error AttributeError)] |}).
Proof.
  intros E.
  apply (proj2 (unreadable_message_ends_loop E _ Example.ready)).
  intros items. discriminate.
Defined.

(** X4.  A [complete] message ends the loop after printing its count, and
    so does any pass that ends the loop: what the stream holds after it is
    never read, so two streams that agree up to that message give the same
    result. *)
Theorem nothing_is_read_after_the_loop_ends E pre rest rest' s :
  (∀ items s1, py_str_eq (dict_get items "type" PNone) "complete" = true →
     loop_passes E pre s = (Ok Continue, s1) →
     receive_loop E (pre ++ Message (Some (PDict items)) :: rest) s =
       (Ok tt,
        {| self := self s1; fs := fs s1;
           trace := trace s1 ++
                      [Print (L_transfer_complete (dict_get items "total_frames" PNone))] |})) ∧
  (∀ s1, loop_passes E pre s = (Ok Break, s1) →
     receive_loop E (pre ++ rest) s = (Ok tt, s1) ∧
     receive_loop E (pre ++ rest') s = (Ok tt, s1)).
Proof.
  split.
  - intros items s1 Htype Hpre.
    rewrite (receive_loop_app E pre _ s s1 Hpre), receive_loop_cons.
    destruct s1 as [c f t].
    unfold loop_iteration, recv_json, handle_message, py_get. run_M.
    destruct (dict_get items "type" PNone) as [| | | |ty| |]; try done.
    simpl in Htype. apply String.eqb_eq in Htype as ->. by run_M.
  - intros s1 Hpre. by rewrite !(receive_loop_after_break E pre _ s s1 Hpre).
Qed.

Lemma nothing_is_read_after_the_loop_ends_witness :
  let E := Example.service Example.initialized (Example.generating 1) (Ok []) in
  receive_loop E ([] ++ complete_message 7 :: [frame_message 0 1 "f0.png" "t0" Example.hi])
    Example.ready =
    (Ok tt, {| self := self Example.ready; fs := fs Example.ready;
               trace := trace Example.ready ++ [Print (L_transfer_complete (PInt 7))] |}).
Proof.
  intros E.
  apply (proj1 (nothing_is_read_after_the_loop_ends E [] _ [] Example.ready)
           [("type", PStr "complete"); ("total_frames", PInt 7)] Example.ready).
  - reflexivity.
  - reflexivity.
Defined.

(** ** Frames *)

(** X5.  A frame whose payload decodes but whose [filename] is missing or is
    not text ends the loop with a [TypeError]: nothing is written and the
    counter does not move. *)
Theorem frame_without_text_filename_ends_loop E items payload s :
  py_str_eq (dict_get items "type" PNone) "frame" = true →
  b64decode (dict_get items "data" PNone) = Ok payload →
  (∀ name, dict_get items "filename" PNone ≠ PStr name) →
  loop_iteration E (Message (Some (PDict items))) s =
    (Ok Break, {| self := self s; fs := fs s;
                  trace := trace s ++ [Print (L_recv_error TypeError)] |}).
Proof.
  intros Htype Hdec Hno. destruct s as [c f t].
  unfold loop_iteration, recv_json, handle_message, py_get. run_M.
  rewrite (frame_not_status items Htype), Htype, Hdec. run_M.
  destruct (dict_get items "filename" PNone); run_M; try done. by destruct (Hno s).
Qed.

Lemma frame_without_text_filename_ends_loop_witness :
  let E := Example.service Example.initialized (Example.generating 1) (Ok []) in
  loop_iteration E
    (Message (Some (PDict [("type", PStr "frame"); ("data", PStr Example.hi)])))
    Example.ready =
    (Ok Break, {| self := self Example.ready; fs := fs Example.ready;
                  trace := trace Example.ready ++ [Print (L_recv_error TypeError)] |}).
Proof.
  intros E.
  apply (frame_without_text_filename_ends_loop E _ ["h"%byte; "i"%byte]).
  - reflexivity.
  - reflexivity.
  - intros name. vm_compute. discriminate.
Defined.

(** X6.  The [index] and [timestamp] of a frame are read and never used, and
    no order or duplicate check is made: two frame messages with the same
    [filename], [data] and [total] are handled identically, whatever else
    they carry. *)
Theorem frame_index_and_timestamp_are_unused E items items' s :
  py_str_eq (dict_get items "type" PNone) "frame" = true →
  py_str_eq (dict_get items' "type" PNone) "frame" = true →
  dict_get items "filename" PNone = dict_get items' "filename" PNone →
  dict_get items "data" PNone = dict_get items' "data" PNone →
  dict_get items "total" PNone = dict_get items' "total" PNone →
  loop_iteration E (Message (Some (PDict items))) s =
  loop_iteration E (Message (Some (PDict items'))) s.
Proof.
  intros Htype Htype' Hname Hdata Htotal.
  unfold loop_iteration, recv_json, handle_message, py_get. run_M.
  rewrite (frame_not_status items Htype), (frame_not_status items' Htype'), Htype, Htype'.
  run_M. by rewrite Hname, Hdata, Htotal.
Qed.

Lemma frame_index_and_timestamp_are_unused_witness :
  let E := Example.service Example.initialized (Example.generating 3) (Ok []) in
  loop_iteration E (frame_message 0 3 "f.png" "t0" Example.hi) Example.ready =
  loop_iteration E (frame_message 99 3 "f.png" "never" Example.hi) Example.ready.
Proof.
  intros E. apply frame_index_and_timestamp_are_unused; reflexivity.
Defined.

(** ** Paths and directories *)

Lemma split_last_snoc cs c : split_last (cs ++ [c]) = Some (cs, c).
Proof. unfold split_last. by rewrite reverse_snoc, reverse_involutive. Qed.

Lemma split_last_Some cs init name : split_last cs = Some (init, name) → cs = init ++ [name].
Proof.
  unfold split_last. destruct (reverse cs) as [|c r] eqn:Hr; [done|].
  intros [= <- <-]. by rewrite <- (reverse_involutive cs), Hr, reverse_cons.
Qed.

Lemma split_last_None cs : split_last cs = None → cs = [].
Proof.
  unfold split_last. destruct (reverse cs) as [|c r] eqn:Hr; [|done].
  intros _. by rewrite <- (reverse_involutive cs), Hr.
Qed.

Lemma walk_app fs cur cs1 cs2 :
  walk fs cur (cs1 ++ cs2) =
    match walk fs cur cs1 with
    | Ok d => walk fs d cs2
    | Raise e => Raise e
    end.
Proof.
  revert cur. induction cs1 as [|c cs1 IH]; intros cur; simpl; [done|].
  destruct (step_dir fs cur c); auto.
Qed.

(** A walk that succeeds still does when directories are added. *)
Lemma step_dir_mono fs1 fs2 cur c d :
  dirs fs1 ⊆ dirs fs2 → step_dir fs1 cur c = Ok d → step_dir fs2 cur c = Ok d.
Proof.
  unfold step_dir. intros Hsub. destruct (String.eqb c ".."); [done|].
  destruct (decide (cur ++ [c] ∈ dirs fs1)) as [Hin|]; [|by repeat case_match].
  intros [= <-]. by rewrite decide_True by set_solver.
Qed.

Lemma walk_mono fs1 fs2 cur cs d :
  dirs fs1 ⊆ dirs fs2 → walk fs1 cur cs = Ok d → walk fs2 cur cs = Ok d.
Proof.
  intros Hsub. revert cur. induction cs as [|c cs IH]; intros cur; simpl; [done|].
  destruct (step_dir fs1 cur c) as [d1|] eqn:H1; [|done].
  rewrite (step_dir_mono _ _ _ _ _ Hsub H1). apply IH.
Qed.

Lemma is_dir_mono fs1 fs2 cwd p :
  dirs fs1 ⊆ dirs fs2 → is_dir fs1 cwd p = true → is_dir fs2 cwd p = true.
Proof.
  unfold is_dir. intros Hsub. destruct (walk fs1 _ _) as [d|] eqn:Hw; [|done].
  by rewrite (walk_mono _ _ _ _ _ Hsub Hw).
Qed.

(** [os.mkdir] on success: one directory more, and the path now is one. *)
Lemma os_mkdir_Ok fs cwd p fs' :
  os_mkdir fs cwd p = Ok fs' →
  is_dir fs' cwd p = true ∧ dirs fs ⊆ dirs fs' ∧ files fs' = files fs.
Proof.
  unfold os_mkdir. destruct (split_last (parts p)) as [[init name]|] eqn:Hsp; [|done].
  apply split_last_Some in Hsp.
  destruct (walk fs (start_dir cwd p) init) as [d|] eqn:Hw; [|done].
  destruct (String.eqb name "..") eqn:Hdd; [done|].
  repeat case_decide; try done. intros [= <-]. simpl. split_and!; [|set_solver|done].
  unfold is_dir. rewrite Hsp, walk_app.
  erewrite walk_mono; [|by apply union_subseteq_r|exact Hw]. simpl.
  unfold step_dir. rewrite Hdd. simpl. by rewrite decide_True by set_solver.
Qed.

(** [os.mkdir] on a directory that exists. *)
Lemma os_mkdir_existing fs cwd p :
  is_dir fs cwd p = true → os_mkdir fs cwd p = Raise FileExistsError.
Proof.
  unfold is_dir, os_mkdir. destruct (split_last (parts p)) as [[init name]|] eqn:Hsp; [|done].
  apply split_last_Some in Hsp. rewrite Hsp, walk_app.
  destruct (walk fs (start_dir cwd p) init) as [d|]; [|done]. simpl.
  unfold step_dir. destruct (String.eqb name ".."); [done|].
  by repeat case_decide.
Qed.

Lemma mkdir_exist_ok_Ok fs cwd p fs' :
  mkdir_exist_ok fs cwd p = Ok fs' →
  is_dir fs' cwd p = true ∧ dirs fs ⊆ dirs fs' ∧ files fs' = files fs.
Proof.
  unfold mkdir_exist_ok. destruct (os_mkdir fs cwd p) as [fs1|e] eqn:H1.
  - intros [= <-]. by apply os_mkdir_Ok.
  - destruct e; try done; destruct (is_dir fs cwd p) eqn:Hd; try done; by intros [= <-].
Qed.

Lemma mkdir_parents_Ok fs cwd anch rparts fs' :
  mkdir_parents fs cwd anch rparts = Ok fs' →
  is_dir fs' cwd {| anchored := anch; parts := reverse rparts |} = true ∧
  dirs fs ⊆ dirs fs' ∧ files fs' = files fs.
Proof.
  revert fs fs'. induction rparts as [|c rparts IH]; intros fs fs';
    cbn [mkdir_parents];
    match goal with |- context [os_mkdir fs cwd ?p] =>
      destruct (os_mkdir fs cwd p) as [fs1|e] eqn:H1;
        [intros [= <-]; by apply os_mkdir_Ok|]
    end.
  - destruct e; try done; destruct (is_dir fs cwd _) eqn:Hd; try done; by intros [= <-].
  - destruct e; try (destruct (is_dir fs cwd _) eqn:Hd; try done; by intros [= <-]).
    destruct (mkdir_parents fs cwd anch rparts) as [fs2|e2] eqn:H2; [|done].
    intros (Hd & Hsub & Hf)%mkdir_exist_ok_Ok. apply IH in H2 as (_ & Hsub2 & Hf2).
    split_and!; [done|by etrans|congruence].
Qed.

Lemma path_as_given p : {| anchored := anchored p; parts := reverse (reverse (parts p)) |} = p.
Proof. destruct p. simpl. by rewrite reverse_involutive. Qed.

(** [mkdir(parents=True, exist_ok=True)]: on success the path is a directory,
    no directory and no file is lost. *)
Lemma path_mkdir_Ok fs cwd p fs' :
  path_mkdir fs cwd p = Ok fs' →
  is_dir fs' cwd p = true ∧ dirs fs ⊆ dirs fs' ∧ files fs' = files fs.
Proof.
  unfold path_mkdir. intros H%mkdir_parents_Ok. by rewrite path_as_given in H.
Qed.

(** On a directory that exists it does nothing. *)
Lemma path_mkdir_existing fs cwd p :
  is_dir fs cwd p = true → path_mkdir fs cwd p = Ok fs.
Proof.
  intros Hd. unfold path_mkdir.
  assert (∀ rparts, {| anchored := anchored p; parts := reverse rparts |} = p →
            mkdir_parents fs cwd (anchored p) rparts = Ok fs) as H.
  { intros rparts Hp. destruct rparts; cbn [mkdir_parents]; rewrite Hp;
      by rewrite (os_mkdir_existing fs cwd p Hd), Hd. }
  apply H, path_as_given.
Qed.

(** On a path that names a regular file it raises [FileExistsError]. *)
Lemma path_mkdir_on_file fs cwd p target c :
  resolve_for_write fs cwd p = Ok target → files fs !! target = Some c →
  path_mkdir fs cwd p = Raise FileExistsError.
Proof.
  unfold resolve_for_write. destruct (split_last (parts p)) as [[init name]|] eqn:Hsp; [|done].
  destruct (walk fs (start_dir cwd p) init) as [d|] eqn:Hw; [|done].
  destruct (String.eqb name "..") eqn:Hdd; [done|].
  destruct (decide (d ++ [name] ∈ dirs fs)) as [|Hnd]; [done|]. intros [= <-] Hfile.
  assert (os_mkdir fs cwd p = Raise FileExistsError) as Hos.
  { unfold os_mkdir. rewrite Hsp, Hw, Hdd. rewrite decide_False by done.
    by rewrite decide_True by (by eexists). }
  assert (is_dir fs cwd p = false) as Hnot.
  { unfold is_dir. rewrite (split_last_Some _ _ _ Hsp), walk_app, Hw. simpl.
    unfold step_dir. rewrite Hdd. rewrite decide_False by done.
    by rewrite decide_True by (by eexists). }
  unfold path_mkdir.
  assert (∀ rparts, {| anchored := anchored p; parts := reverse rparts |} = p →
            mkdir_parents fs cwd (anchored p) rparts = Raise FileExistsError) as H.
  { intros rparts Hp. destruct rparts; cbn [mkdir_parents]; rewrite Hp; by rewrite Hos, Hnot. }
  apply H, path_as_given.
Qed.

(** ** Construction *)

(** X8.  [__init__] creates the output directory with its missing parents
    and nothing else: when it returns, the output path is a directory, every
    directory and every file that existed is still there, unchanged, and
    the counters are zero.  If the output path already is a directory the
    sink is left exactly as it was; if it names a regular file, [__init__]
    raises [FileExistsError] before printing anything. *)
Theorem init_creates_output_dir E url out s :
  (∀ s', __init__ E url out s = (Ok tt, s') →
     output_dir (self s') = Path out ∧
     is_dir (fs s') (cwd E) (Path out) = true ∧
     dirs (fs s) ⊆ dirs (fs s') ∧ files (fs s') = files (fs s) ∧
     frames_received (self s') = 0 ∧ total_frames (self s') = PInt 0) ∧
  (is_dir (fs s) (cwd E) (Path out) = true →
     ∃ s', __init__ E url out s = (Ok tt, s') ∧ fs s' = fs s) ∧
  (∀ target c, resolve_for_write (fs s) (cwd E) (Path out) = Ok target →
     files (fs s) !! target = Some c →
     ∃ s', __init__ E url out s = (Raise FileExistsError, s') ∧
           fs s' = fs s ∧ trace s' = trace s).
Proof.
  rewrite init_spec. split_and!.
  - intros s'. destruct (path_mkdir (fs s) (cwd E) (Path out)) as [fs1|e] eqn:Hmk; [|done].
    intros [= <-]. apply path_mkdir_Ok in Hmk as (? & ? & ?). simpl. by split_and!.
  - intros Hd. rewrite (path_mkdir_existing _ _ _ Hd). eauto.
  - intros target c Hres Hfile. rewrite (path_mkdir_on_file _ _ _ _ _ Hres Hfile). eauto.
Qed.

Lemma init_creates_output_dir_witness :
  let E := Example.service Example.initialized (Example.generating 1) (Ok []) in
  let occupied := {| self := self Example.boot;
                     fs := store Example.disk ["srv"; "a"] (Binary []);
                     trace := [] |} in
  (∃ s', __init__ E "example.org" "a/b" Example.boot = (Ok tt, s') ∧
         is_dir (fs s') (cwd E) (Path "a/b") = true ∧
         is_dir (fs s') (cwd E) (Path "a") = true) ∧
  (∃ s', __init__ E "example.org" "out" Example.ready = (Ok tt, s') ∧
         fs s' = fs Example.ready) ∧
  (∃ s', __init__ E "example.org" "a" occupied = (Raise FileExistsError, s') ∧
         fs s' = fs occupied ∧ trace s' = trace occupied).
Proof.
  intros E occupied. split_and!.
  - eexists. split; [vm_compute; reflexivity|].
    split.
    + refine (proj1 (proj2 (proj1 (init_creates_output_dir E "example.org" "a/b" Example.boot)
                _ _))).
      vm_compute. reflexivity.
    + vm_compute. reflexivity.
  - apply (proj1 (proj2 (init_creates_output_dir E "example.org" "out" Example.ready))).
    vm_compute. reflexivity.
  - apply (proj2 (proj2 (init_creates_output_dir E "example.org" "a" occupied))
             ["srv"; "a"] (Binary [])).
    + vm_compute. reflexivity.
    + vm_compute. reflexivity.
Defined.

(** ** What a run does besides writing frames *)

Lemma posts_made_app t1 t2 : posts_made (t1 ++ t2) = posts_made t1 ++ posts_made t2.
Proof. apply omap_app. Qed.

Lemma files_read_app t1 t2 : files_read (t1 ++ t2) = files_read t1 ++ files_read t2.
Proof. apply omap_app. Qed.

Lemma frame_or_line_prints ls : Forall (λ e, frame_or_line e = true) (map Print ls).
Proof. induction ls; constructor; auto. Qed.

(** Frame writes and console lines are no requests, reads, connections or
    summaries. *)
Lemma frame_or_line_quiet new :
  Forall (λ e, frame_or_line e = true) new →
  posts_made new = [] ∧ files_read new = [] ∧
  connections_opened new = [] ∧ summaries_written new = [].
Proof.
  induction 1 as [|e new He _ IH]; [done|]. destruct IH as (? & ? & ? & ?).
  unfold posts_made, files_read, connections_opened, summaries_written in *.
  destruct e; try done; simpl; by split_and!.
Qed.

Lemma posts_made_prints ls : posts_made (map Print ls) = [].
Proof. apply frame_or_line_quiet, frame_or_line_prints. Qed.

Lemma files_read_prints ls : files_read (map Print ls) = [].
Proof. apply frame_or_line_quiet, frame_or_line_prints. Qed.

Lemma looped_trans s1 s2 s3 new1 new2 :
  looped s1 s2 new1 → looped s2 s3 new2 → looped s1 s3 (new1 ++ new2).
Proof.
  intros [Hs1 He1 Hk1] [Hs2 He2 Hk2].
  split; [by eapply streamed_trans|by apply Forall_app|auto].
Qed.

Lemma loop_iteration_looped E ev s :
  ∃ c s' new, loop_iteration E ev s = (Ok c, s') ∧ looped s s' new.
Proof.
  destruct (loop_iteration_streamed E ev s) as (c & s' & new & Hrun & Hst).
  exists c, s', new. split; [done|].
  pose proof (loop_iteration_spec E ev s) as H. pose proof (st_trace _ _ _ Hst) as Ht.
  destruct (frame_write_of E s ev) as [[target payload]|].
  - destruct H as [ls H]. rewrite H in Hrun. simplify_eq. simpl in *.
    apply app_inv_head in Ht as <-. split; [done| |].
    + constructor; [done|apply frame_or_line_prints].
    + intros t Ht. simpl. by apply lookup_insert_is_Some'; right.
  - destruct H as (c' & ls & H). rewrite H in Hrun. simplify_eq. simpl in *.
    apply app_inv_head in Ht as <-. split; [done|apply frame_or_line_prints|done].
Qed.

Lemma receive_loop_looped E stream s :
  ∃ s' new, receive_loop E stream s = (Ok tt, s') ∧ looped s s' new.
Proof.
  revert s. induction stream as [|ev stream IH]; intros s.
  - destruct (loop_iteration_looped E (RecvRaises WebSocketTimeoutException) s)
      as (c & s' & new & Hrun & Hl).
    exists s', new. split; [|done]. simpl. run_M. by rewrite Hrun.
  - destruct (loop_iteration_looped E ev s) as (c & s1 & new1 & Hrun & Hl).
    rewrite receive_loop_cons, Hrun. destruct c; [|by eauto].
    destruct (IH s1) as (s2 & new2 & Hrun2 & Hl2).
    exists s2, (new1 ++ new2). split; [done|]. by eapply looped_trans.
Qed.

Lemma sink_effect_trans s1 s2 s3 new1 new2 :
  sink_effect s1 s2 new1 → sink_effect s2 s3 new2 → sink_effect s1 s3 (new1 ++ new2).
Proof.
  intros [Ht1 Hf1 Hk1 Hd1] [Ht2 Hf2 Hk2 Hd2]. split.
  - rewrite app_assoc. congruence.
  - intros t. rewrite frame_writes_app, summaries_written_app, !fmap_app, !not_elem_of_app.
    intros [] []. rewrite Hf2, Hf1; auto.
  - auto.
  - by etrans.
Qed.

Lemma control_step_sink s s' new : control_step s s' new → sink_effect s s' new.
Proof.
  intros [Ht _ _ _ Hfs _ _ _]. split; [done| | |].
  - intros t _ _. by rewrite Hfs.
  - intros t. by rewrite Hfs.
  - by rewrite Hfs.
Qed.

Lemma looped_sink s s' new : looped s s' new → sink_effect s s' new.
Proof.
  intros [Hst He Hk]. split; [apply Hst| |done|].
  - intros t Ht _. by apply (st_files _ _ _ Hst).
  - by rewrite (st_dirs _ _ _ Hst).
Qed.

Lemma sink_effect_emits s evs :
  frame_writes evs = [] → summaries_written evs = [] →
  sink_effect s {| self := self s; fs := fs s; trace := trace s ++ evs |} evs.
Proof. intros Hf Hs. by split. Qed.

(** [receive_frames]: what it does to the sink, and that it neither posts
    nor reads. *)
Lemma receive_frames_effect E s :
  ∃ s' new, receive_frames E s = (Ok tt, s') ∧ sink_effect s s' new ∧
            posts_made new = [] ∧ files_read new = [] ∧
            server_url (self s') = server_url (self s) ∧
            output_dir (self s') = output_dir (self s).
Proof.
  pose proof (receive_frames_spec E s) as H.
  destruct (ws_connect E (ws_url (self s)) 10) as [stream|e].
  2:{ eexists _, _. split; [exact H|]. split_and!; try done. }
  destruct H as (s1 & new & Hrun & _ & H).
  destruct (receive_loop_looped E stream (connected s)) as (s1' & new' & Hrun' & Hl).
  rewrite Hrun in Hrun'. simplify_eq. clear new.
  destruct (frame_or_line_quiet new' (lp_events _ _ _ Hl)) as (Hp & Hr & _ & _).
  pose proof (lp_streamed _ _ _ Hl) as Hst.
  assert (sink_effect s (connected s) _) as H0 by (by apply sink_effect_emits).
  pose proof (sink_effect_trans _ _ _ _ _ H0 (looped_sink _ _ _ Hl)) as H01.
  destruct (resolve_for_write (fs s1') (cwd E) (metadata_path (self s1'))) as [target|e].
  - eexists _, _. split; [exact H|]. split_and!.
    + eapply sink_effect_trans; [exact H01|].
      split; simpl; [reflexivity| | |done].
      * intros t _ Ht. apply lookup_insert_ne. set_solver.
      * intros t Ht. by apply lookup_insert_is_Some'; right.
    + by rewrite !posts_made_app, Hp.
    + by rewrite !files_read_app, Hr.
    + apply Hst.
    + apply Hst.
  - eexists _, _. split; [exact H|]. split_and!.
    + eapply sink_effect_trans; [exact H01|]. by apply sink_effect_emits.
    + by rewrite !posts_made_app, Hp.
    + by rewrite !files_read_app, Hr.
    + apply Hst.
    + apply Hst.
Qed.

Lemma main_receive_effect E s :
  ∃ s' new, main_receive E s = (Ok Finished, s') ∧ sink_effect s s' new ∧
            posts_made new = [] ∧ files_read new = [].
Proof.
  destruct (receive_frames_effect E s) as (s1 & new & H & Hs & Hp & Hr & _ & _).
  unfold main_receive. run_M. rewrite H. run_M.
  eexists _, _. split; [done|]. rewrite <- !app_assoc. simpl. split_and!.
  - eapply sink_effect_trans; [exact Hs|]. by apply sink_effect_emits.
  - by rewrite posts_made_app, Hp.
  - by rewrite files_read_app, Hr.
Qed.

(** The control methods: one request each, to their own endpoint. *)
Lemma initialize_backend_effect E file config s :
  ∃ r s' new, initialize_backend E file config s = (r, s') ∧ control_step s s' new ∧
              posts_made new `sublist_of` [initialize_url (self s)] ∧
              files_read new = [file].
Proof.
  destruct (read_json E file) as [sat|e] eqn:Hr.
  - destruct (initialize_backend_spec E file config s sat Hr) as (s' & ls & H & Hself & Hfs & Ht).
    eexists _, s', _. split; [exact H|]. split_and!.
    + apply control_step_of_trace with (new := _); [exact Ht|..]; try by rewrite ?Hself.
      * rewrite !frame_writes_app, frame_writes_prints. by case_match.
      * rewrite !summaries_written_app, summaries_written_prints. by case_match.
      * rewrite !connections_opened_app, connections_opened_prints. by case_match.
    + rewrite !posts_made_app, posts_made_prints. by case_match.
    + rewrite !files_read_app, files_read_prints. by case_match.
  - rewrite (initialize_backend_read_error E file config s e Hr).
    eexists _, _, _. split; [done|]. split_and!; [by split| |done].
    simpl. apply sublist_nil_l.
Qed.

Lemma start_generation_effect E duration step start_time s :
  ∃ b s' new, start_generation E duration step start_time s = (Ok b, s') ∧
              control_step s s' new ∧
              posts_made new = [generate_url (self s)] ∧ files_read new = [].
Proof.
  destruct (start_generation_spec E duration step start_time s)
    as (s' & ls & H & Hfs & Hu & Ho & Hf & _ & Ht).
  eexists _, s', _. split; [exact H|]. split_and!.
  - apply control_step_of_trace with (new := _); [exact Ht|..]; try done.
    + by rewrite !frame_writes_app, frame_writes_prints.
    + by rewrite !summaries_written_app, summaries_written_prints.
    + by rewrite !connections_opened_app, connections_opened_prints.
  - by rewrite !posts_made_app, posts_made_prints.
  - by rewrite !files_read_app, files_read_prints.
Qed.

Lemma main_generate_effect E a s :
  ∃ x s' new, main_generate E a s = (Ok x, s') ∧ sink_effect s s' new ∧
              posts_made new `sublist_of` [generate_url (self s)] ∧ files_read new = [].
Proof.
  unfold main_generate. destruct (arg_skip_generate a); simpl.
  { destruct (main_receive_effect E s) as (s' & new & H & Hs & Hp & Hr).
    eexists _, _, _. split; [exact H|]. split_and!; [done| |done].
    rewrite Hp. apply sublist_nil_l. }
  destruct (start_generation_effect E (arg_duration a) (arg_step a)
              (optional_str (arg_start_time a)) s) as (b & s1 & new & H1 & Hc & Hp & Hr).
  apply control_step_sink in Hc as Hs.
  run_M. rewrite H1. destruct b; run_M.
  - destruct (main_receive_effect E {| self := self s1; fs := fs s1;
                                       trace := trace s1 ++ [Sleep 2] |})
      as (s' & new' & H' & Hs' & Hp' & Hr').
    eexists _, _, _. split; [exact H'|]. split_and!.
    + eapply sink_effect_trans; [exact Hs|].
      eapply sink_effect_trans; [|exact Hs']. by apply sink_effect_emits.
    + by rewrite !posts_made_app, Hp, Hp'.
    + by rewrite !files_read_app, Hr, Hr'.
  - eexists _, _, _. split; [done|]. split_and!.
    + eapply sink_effect_trans; [exact Hs|]. by apply sink_effect_emits.
    + by rewrite posts_made_app, Hp.
    + by rewrite files_read_app, Hr.
Qed.

Lemma main_generate_effect_flag E a s :
  ∃ x s' new, main_generate E a s = (Ok x, s') ∧ sink_effect s s' new ∧
              posts_made new `sublist_of`
                (if arg_skip_generate a then [] else [generate_url (self s)]) ∧
              files_read new = [].
Proof.
  destruct (main_generate_effect E a s) as (x & s' & new & H & Hs & Hp & Hr).
  exists x, s', new. split_and!; try done.
  destruct (arg_skip_generate a) eqn:Hskip; [|done].
  unfold main_generate in H. rewrite Hskip in H. simpl in H.
  destruct (main_receive_effect E s) as (s2 & new2 & H2 & Hs2 & Hp2 & _).
  rewrite H2 in H. simplify_eq.
  pose proof (se_trace _ _ _ Hs) as Ht. rewrite (se_trace _ _ _ Hs2) in Ht.
  apply app_inv_head in Ht as <-. by rewrite Hp2.
Qed.

Lemma main_initialize_effect E a s r s' :
  main_initialize E a s = (r, s') →
  ∃ new, sink_effect s s' new ∧
         posts_made new `sublist_of` requests_allowed a (self s) ∧
         files_read new `sublist_of` (if arg_skip_init a then [] else
                                        [default "" (arg_satellite_file a)]).
Proof.
  unfold main_initialize, requests_allowed. intros H.
  destruct (arg_skip_init a); simpl in H.
  { destruct (main_generate_effect_flag E a s) as (x & s2 & new & H2 & Hs & Hp & Hr).
    rewrite H2 in H. simplify_eq. exists new. by rewrite Hr. }
  destruct (py_truthy (optional_str (arg_satellite_file a))); simpl in H.
  2:{ run_M. simplify_eq. eexists. split_and!; [by apply sink_effect_emits|..];
        apply sublist_nil_l. }
  destruct (initialize_backend_effect E (default "" (arg_satellite_file a)) PNone s)
    as (r1 & s1 & new & H1 & Hc & Hp & Hr).
  apply control_step_sink in Hc as Hs.
  run_M. rewrite H1 in H. destruct r1 as [[]|e]; run_M.
  - destruct (main_generate_effect_flag E a {| self := self s1; fs := fs s1;
                                               trace := trace s1 ++ [Sleep 1] |})
      as (x & s2 & new2 & H2 & Hs2 & Hp2 & Hr2).
    rewrite H2 in H. simplify_eq. eexists. split_and!.
    + eapply sink_effect_trans; [exact Hs|].
      eapply sink_effect_trans; [|exact Hs2]. by apply sink_effect_emits.
    + rewrite !posts_made_app. simpl in *.
      match goal with |- _ `sublist_of` ?i :: ?k => change (i :: k) with ([i] ++ k) end.
      apply sublist_app; [done|].
      assert (generate_url (self s1) = generate_url (self s)) as <-; [|done].
      unfold generate_url. by rewrite (cs_server_url _ _ _ Hc).
    + rewrite !files_read_app, Hr, Hr2. done.
  - simplify_eq. eexists. split_and!.
    + eapply sink_effect_trans; [exact Hs|]. by apply sink_effect_emits.
    + rewrite posts_made_app. simpl. rewrite app_nil_r.
      etrans; [exact Hp|]. apply sublist_skip, sublist_nil_l.
    + by rewrite files_read_app, Hr.
  - simplify_eq. exists new. split_and!; [done| |by rewrite Hr].
    etrans; [exact Hp|]. apply sublist_skip, sublist_nil_l.
Qed.

(** [main] as a whole. *)
Lemma main_effect E a s r s' :
  main E a s = (r, s') →
  ∃ new, sink_effect s s' new ∧
         posts_made new `sublist_of`
           requests_allowed a (constructed (arg_server a) (arg_output a)) ∧
         files_read new `sublist_of` (if arg_skip_init a then [] else
                                        [default "" (arg_satellite_file a)]).
Proof.
  rewrite main_unfold, init_spec. intros H.
  destruct (path_mkdir (fs s) (cwd E) (Path (arg_output a))) as [fs1|e] eqn:Hmk.
  2:{ simplify_eq. exists []. split_and!; [|apply sublist_nil_l..].
      split; simpl; [by rewrite app_nil_r|done..]. }
  apply path_mkdir_Ok in Hmk as (_ & Hsub & Hfiles).
  apply main_initialize_effect in H as (new & Hs & Hp & Hr). simpl in Hp.
  eexists. split.
  { eapply sink_effect_trans; [|exact Hs].
    split; simpl; [reflexivity| | |done].
    - intros t _ _. by rewrite Hfiles.
    - intros t. by rewrite Hfiles. }
  split; [rewrite posts_made_app; exact Hp|rewrite files_read_app; exact Hr].
Qed.

(** The summaries of [receive_frames] record [total_frames] as it was when
    streaming began. *)
Lemma receive_frames_summaries E s :
  ∃ s' new, receive_frames E s = (Ok tt, s') ∧ trace s' = trace s ++ new ∧
            ∀ target sm, (target, sm) ∈ summaries_written new →
                         sum_expected sm = total_frames (self s).
Proof.
  pose proof (receive_frames_spec E s) as H.
  destruct (ws_connect E (ws_url (self s)) 10) as [stream|e].
  - destruct H as (s1 & new & _ & Hst & H).
    pose proof (st_trace _ _ _ Hst) as Ht. pose proof (st_total_frames _ _ _ Hst) as Htot.
    pose proof (st_summaries _ _ _ Hst) as Hsum. simpl in Ht, Htot.
    destruct (resolve_for_write (fs s1) (cwd E) (metadata_path (self s1))) as [target|e].
    + eexists _, _. split; [exact H|]. simpl. rewrite Ht, <- !app_assoc.
      split; [reflexivity|].
      intros t sm. rewrite !summaries_written_app, Hsum. simpl.
      intros Hin%list_elem_of_singleton. by simplify_eq.
    + eexists _, _. split; [exact H|]. simpl. rewrite Ht, <- !app_assoc.
      split; [reflexivity|].
      intros t sm. rewrite !summaries_written_app, Hsum. simpl. by intros ?%elem_of_nil.
  - eexists _, _. split; [exact H|]. simpl. split; [reflexivity|].
    intros t sm. simpl. by intros ?%elem_of_nil.
Qed.

(** ** The generation request *)

(** X9.  [start_generation] never raises and posts exactly once.  It returns
    [True] when the request went through with a status outside 400..599 and
    a JSON object as body, and then [total_frames] is the body's
    [total_frames] entry, or 0 when it has none.  In every other case it
    returns [False], prints the cause and leaves [total_frames] as it was.
    Either way the sink and the rest of the client are untouched. *)
Theorem start_generation_never_raises E duration step start_time s :
  let reply := http_post E (generate_url (self s))
                 (generate_payload duration step start_time) 10 in
  ∃ s', start_generation E duration step start_time s =
          (Ok (bool_decide (reply_failure reply = None)), s') ∧
        fs s' = fs s ∧
        server_url (self s') = server_url (self s) ∧
        output_dir (self s') = output_dir (self s) ∧
        frames_received (self s') = frames_received (self s) ∧
        posts_made (drop (length (trace s)) (trace s')) = [generate_url (self s)] ∧
        (∀ e, reply_failure reply = Some e →
           total_frames (self s') = total_frames (self s) ∧
           last (trace s') = Some (Print (L_generate_failed e))) ∧
        (∀ status body, reply = PostResponse status (Some (PDict body)) →
           reply_failure reply = None →
           total_frames (self s') = dict_get body "total_frames" (PInt 0)).
Proof.
  intros reply. destruct s as [c f t].
  unfold start_generation, post, raise_for_status, response_json, py_get. run_M.
  fold (generate_payload duration step start_time).
  unfold reply, reply_failure. simpl.
  destruct (http_post E (generate_url c) (generate_payload duration step start_time) 10)
    as [e|status body]; run_M.
  { eexists. split; [reflexivity|]. simpl. rewrite <- !app_assoc, drop_app_length.
    split_and!; try done. intros e' [= <-]. split; [done|].
    rewrite !app_assoc. apply last_snoc. }
  destruct ((400 <=? status) && (status <? 600)) eqn:Hst; run_M.
  { eexists. split; [reflexivity|]. simpl. rewrite <- !app_assoc, drop_app_length.
    split_and!; try done. intros e' [= <-]. split; [done|].
    rewrite !app_assoc. apply last_snoc. }
  destruct body as [body|]; run_M.
  2:{ eexists. split; [reflexivity|]. simpl. rewrite <- !app_assoc, drop_app_length.
      split_and!; try done. intros e' [= <-]. split; [done|].
      rewrite !app_assoc. apply last_snoc. }
  destruct body; run_M.
  all: try (eexists; split; [reflexivity|]; simpl; rewrite <- !app_assoc, drop_app_length;
            split_and!; try done; intros e' [= <-]; split; [done|];
            rewrite !app_assoc; apply last_snoc).
  eexists. split; [reflexivity|]. simpl. rewrite <- !app_assoc, drop_app_length.
  split_and!; try done. by intros status' body' [= _ <-] _.
Qed.

Lemma start_generation_never_raises_witness :
  let empty_body := Example.service Example.initialized (PostResponse 200 (Some (PDict [])))
                      (Ok []) in
  let not_found := Example.service Example.initialized (PostResponse 404 (Some (PDict [])))
                     (Ok []) in
  (∃ s', start_generation empty_body 60 10 PNone Example.ready = (Ok true, s') ∧
         total_frames (self s') = PInt 0) ∧
  (∃ s', start_generation not_found 60 10 PNone Example.ready = (Ok false, s') ∧
         total_frames (self s') = PInt 5 ∧
         last (trace s') = Some (Print (L_generate_failed (HTTPError 404)))).
Proof.
  intros empty_body not_found. split.
  - destruct (start_generation_never_raises empty_body 60 10 PNone Example.ready)
      as (s' & Hrun & _ & _ & _ & _ & _ & _ & Hok).
    exists s'. split; [exact Hrun|]. apply (Hok 200 []); reflexivity.
  - destruct (start_generation_never_raises not_found 60 10 PNone Example.ready)
      as (s' & Hrun & _ & _ & _ & _ & _ & Hfail & _).
    exists s'. split; [exact Hrun|]. apply (Hfail (HTTPError 404)). reflexivity.
Defined.

(** ** How a session ends *)

(** X10.  A read time-out, or a stream that runs dry, is not an error of the
    session: the loop prints the time-out and ends, the connection is closed
    and the summary is written with the frames received so far. *)
Theorem timeout_ends_session_with_summary E pre rest stream s0 s1 target :
  stream = pre ++ RecvRaises WebSocketTimeoutException :: rest ∨ stream = pre →
  ws_connect E (ws_url (self s0)) 10 = Ok stream →
  loop_passes E pre (connected s0) = (Ok Continue, s1) →
  resolve_for_write (fs s0) (cwd E) (metadata_path (self s0)) = Ok target →
  receive_frames E s0 =
    (Ok tt,
     {| self := self s1;
        fs := store (fs s1) target (MetadataText (current_summary E (self s1)));
        trace := trace s1 ++
          [Print L_ws_timeout; WsClose; Print L_ws_closed;
           MetadataWritten target (current_summary E (self s1));
           Print (L_metadata_saved (path_absolute (cwd E) (metadata_path (self s1))))] |}).
Proof.
  intros Hstream Hconn Hpre Hmeta.
  assert (receive_loop E stream (connected s0) =
    (Ok tt, {| self := self s1; fs := fs s1; trace := trace s1 ++ [Print L_ws_timeout] |}))
    as Hloop.
  { destruct Hstream as [-> | ->].
    - by rewrite (receive_loop_app E pre _ _ s1 Hpre), receive_loop_cons.
    - rewrite <- (app_nil_r pre). by rewrite (receive_loop_app E pre _ _ s1 Hpre). }
  pose proof (receive_frames_spec E s0) as H. rewrite Hconn in H.
  destruct H as (s2 & new & Hrun & _ & ->). rewrite Hloop in Hrun. simplify_eq. simpl.
  destruct (loop_passes_streamed E pre (connected s0)) as (c & s1' & new1 & Hp & Hst).
  rewrite Hpre in Hp. simplify_eq.
  assert (resolve_for_write (fs s1') (cwd E) (metadata_path (self s1')) = Ok target) as ->.
  { unfold metadata_path in *. rewrite (st_output_dir _ _ _ Hst). simpl.
    eapply resolve_for_write_dirs; [|exact Hmeta]. symmetry. apply (st_dirs _ _ _ Hst). }
  by rewrite <- app_assoc.
Qed.

Lemma timeout_ends_session_with_summary_witness :
  let first := frame_message 0 2 "f0.png" "t0" Example.hi in
  let E := Example.service Example.initialized (Example.generating 5)
             (Ok [first; RecvRaises WebSocketTimeoutException;
                  frame_message 1 2 "f1.png" "t1" Example.yo]) in
  ∃ s', receive_frames E Example.ready = (Ok tt, s') ∧
        files (fs s') !! ["srv"; "out"; "metadata.txt"] =
          Some (MetadataText {| sum_received := 1; sum_expected := PInt 5;
                                sum_directory := PurePath true ["srv"; "out"] |}).
Proof.
  intros first E. eexists. split.
  - apply (timeout_ends_session_with_summary E [first]
             [frame_message 1 2 "f1.png" "t1" Example.yo]
             [first; RecvRaises WebSocketTimeoutException;
              frame_message 1 2 "f1.png" "t1" Example.yo] Example.ready
             (loop_passes E [first] (connected Example.ready)).2
             ["srv"; "out"; "metadata.txt"]).
    + left. reflexivity.
    + reflexivity.
    + vm_compute. reflexivity.
    + vm_compute. reflexivity.
  - vm_compute. reflexivity.
Defined.

Lemma main_receive_summaries E s :
  ∃ s' new, main_receive E s = (Ok Finished, s') ∧ trace s' = trace s ++ new ∧
            ∀ target sm, (target, sm) ∈ summaries_written new →
                         sum_expected sm = total_frames (self s).
Proof.
  destruct (receive_frames_summaries E s) as (s1 & new & H & Ht & Hsum).
  unfold main_receive. run_M. rewrite H. run_M.
  eexists _, _. split; [done|]. rewrite Ht, <- !app_assoc. split; [reflexivity|].
  intros t sm. rewrite summaries_written_app. simpl. rewrite app_nil_r. apply Hsum.
Qed.

(** X11.  With [--skip-generate] nothing tells the client how many frames to
    expect: [total_frames] keeps the 0 of [__init__], and a summary, if one
    is written, records 0 as expected total however many frames arrived. *)
Theorem skipping_generation_expects_zero E a s r s' :
  arg_skip_generate a = true →
  main E a s = (r, s') →
  ∃ new, trace s' = trace s ++ new ∧
         ∀ target sm, (target, sm) ∈ summaries_written new → sum_expected sm = PInt 0.
Proof.
  intros Hskip. rewrite main_unfold, init_spec.
  destruct (path_mkdir (fs s) (cwd E) (Path (arg_output a))) as [fs1|e].
  2:{ intros [= <- <-]. exists []. simpl. rewrite app_nil_r. split; [done|].
      intros t sm. by intros ?%elem_of_nil. }
  match goal with |- main_initialize E a ?st = _ → _ => set (s1 := st) end.
  assert (∀ s2 new2, trace s2 = trace s1 ++ new2 → summaries_written new2 = [] →
            total_frames (self s2) = PInt 0 →
            main_generate E a s2 = (r, s') →
            ∃ new, trace s' = trace s ++ new ∧
                   ∀ target sm, (target, sm) ∈ summaries_written new →
                                sum_expected sm = PInt 0)
    as Hgen.
  { intros s2 new2 Ht2 Hs2 Htot. unfold main_generate. rewrite Hskip. simpl.
    destruct (main_receive_summaries E s2) as (s3 & new3 & -> & Ht3 & Hsum3).
    intros [= <- <-]. eexists. rewrite Ht3, Ht2. simpl. rewrite <- !app_assoc.
    split; [reflexivity|]. intros t sm. rewrite <- Htot.
    unfold summaries_written in *. simpl. rewrite omap_app, Hs2. apply Hsum3. }
  assert (∀ s2 new2 ev, trace s2 = trace s1 ++ new2 → summaries_written new2 = [] →
            summary_event ev = None →
            ∃ new, trace s2 ++ [ev] = trace s ++ new ∧
                   ∀ target sm, (target, sm) ∈ summaries_written new →
                                sum_expected sm = PInt 0)
    as Hstop.
  { intros s2 new2 ev Ht2 Hs2 Hev. eexists. rewrite Ht2. simpl. rewrite <- !app_assoc.
    split; [reflexivity|]. intros t sm.
    unfold summaries_written in *. simpl. rewrite omap_app, Hs2. simpl. rewrite Hev.
    by intros ?%elem_of_nil. }
  unfold main_initialize. destruct (arg_skip_init a); simpl.
  { apply (Hgen s1 []); [by rewrite app_nil_r|done|done]. }
  destruct (py_truthy (optional_str (arg_satellite_file a))); simpl.
  2:{ run_M. intros [= <- <-]. apply (Hstop s1 []); [by rewrite app_nil_r|done|done]. }
  destruct (initialize_backend_control E (default "" (arg_satellite_file a)) PNone s1)
    as (r1 & s2 & new & H1 & Hc & Htot).
  pose proof (cs_trace _ _ _ Hc) as Htr. pose proof (cs_summaries _ _ _ Hc) as Hcs.
  run_M. rewrite H1. destruct r1 as [[]|e]; run_M.
  - apply (Hgen _ (new ++ [Sleep 1])); simpl.
    + by rewrite Htr, <- app_assoc.
    + by rewrite summaries_written_app, Hcs.
    + by rewrite Htot.
  - intros [= <- <-]. by apply (Hstop s2 new).
  - intros [= <- <-]. eexists. rewrite Htr. simpl. rewrite <- app_assoc.
    split; [reflexivity|]. intros t sm.
    rewrite summaries_written_app, Hcs. by intros ?%elem_of_nil.
Qed.

Lemma skipping_generation_expects_zero_witness :
  let E := Example.service Example.initialized (Example.generating 5)
             (Ok [frame_message 0 1 "f0.png" "t0" Example.hi; complete_message 1]) in
  let a := {| arg_server := "example.org"; arg_output := "out";
              arg_satellite_file := None; arg_duration := 3600; arg_step := 10;
              arg_start_time := None; arg_skip_init := true; arg_skip_generate := true |} in
  (summaries_written (trace (main E a Example.boot).2)).*2 =
    [{| sum_received := 1; sum_expected := PInt 0;
        sum_directory := PurePath true ["srv"; "out"] |}] ∧
  ∃ new, trace (main E a Example.boot).2 = trace Example.boot ++ new ∧
         ∀ target sm, (target, sm) ∈ summaries_written new → sum_expected sm = PInt 0.
Proof.
  intros E a. split; [vm_compute; reflexivity|].
  apply (skipping_generation_expects_zero E a Example.boot (main E a Example.boot).1).
  - reflexivity.
  - vm_compute. reflexivity.
Defined.

(** ** [main] *)

(** X12.  Without [--skip-init], a missing or empty [--satellite-file] stops
    [main] right after construction: the output directory has been created,
    one error line is printed, and nothing is read, requested or opened. *)
Theorem missing_satellite_argument_stops_main E a s fs1 :
  arg_skip_init a = false →
  arg_satellite_file a = None ∨ arg_satellite_file a = Some "" →
  path_mkdir (fs s) (cwd E) (Path (arg_output a)) = Ok fs1 →
  main E a s =
    (Ok NoSatelliteFile,
     {| self := constructed (arg_server a) (arg_output a);
        fs := fs1;
        trace := trace s ++
          [Print L_banner; Print (L_server (strip_scheme (arg_server a)));
           Print (L_output (path_absolute (cwd E) (Path (arg_output a))));
           Print L_need_satellite_file] |}).
Proof.
  intros Hskip Hfile Hmk. rewrite main_unfold, init_spec, Hmk.
  unfold main_initialize. rewrite Hskip.
  assert (py_truthy (optional_str (arg_satellite_file a)) = false) as ->
    by (by destruct Hfile as [-> | ->]).
  simpl. run_M. by rewrite <- app_assoc.
Qed.

Lemma missing_satellite_argument_stops_main_witness :
  let E := Example.service Example.initialized (Example.generating 5) (Ok []) in
  let a := {| arg_server := "example.org"; arg_output := "out";
              arg_satellite_file := Some ""; arg_duration := 3600; arg_step := 10;
              arg_start_time := None; arg_skip_init := false; arg_skip_generate := false |} in
  (main E a Example.boot).1 = Ok NoSatelliteFile ∧
  trace (main E a Example.boot).2 =
    [Print L_banner; Print (L_server "example.org");
     Print (L_output (PurePath true ["srv"; "out"])); Print L_need_satellite_file].
Proof.
  intros E a.
  rewrite (missing_satellite_argument_stops_main E a Example.boot
             {| dirs := {[ ["srv"; "out"] ]} ∪ dirs Example.disk; files := ∅ |}).
  - split; reflexivity.
  - reflexivity.
  - right. reflexivity.
  - vm_compute. reflexivity.
Defined.

(** X13.  Whatever happens, [main] changes a file only where it wrote a frame
    or the summary; it removes no file and no directory. *)
Theorem main_touches_only_what_it_writes E a s r s' :
  main E a s = (r, s') →
  ∃ new, trace s' = trace s ++ new ∧
         (∀ t, t ∉ (frame_writes new).*1 → t ∉ (summaries_written new).*1 →
               files (fs s') !! t = files (fs s) !! t) ∧
         (∀ t, is_Some (files (fs s) !! t) → is_Some (files (fs s') !! t)) ∧
         dirs (fs s) ⊆ dirs (fs s').
Proof.
  intros H. destruct (main_effect E a s r s' H) as (new & [Ht Hf Hk Hd] & _).
  by exists new.
Qed.

Lemma main_touches_only_what_it_writes_witness :
  let E := Example.service Example.initialized (Example.generating 1)
             (Ok [frame_message 0 1 "f0.png" "t0" Example.hi; complete_message 1]) in
  let before := {| self := self Example.boot;
                   fs := store Example.disk ["srv"; "notes.txt"] (Binary ["h"%byte]);
                   trace := [] |} in
  files (fs (main E Example.cli before).2) !! ["srv"; "notes.txt"] = Some (Binary ["h"%byte]) ∧
  ∃ new, trace (main E Example.cli before).2 = trace before ++ new ∧
         (∀ t, t ∉ (frame_writes new).*1 → t ∉ (summaries_written new).*1 →
               files (fs (main E Example.cli before).2) !! t = files (fs before) !! t) ∧
         (∀ t, is_Some (files (fs before) !! t) →
               is_Some (files (fs (main E Example.cli before).2) !! t)) ∧
         dirs (fs before) ⊆ dirs (fs (main E Example.cli before).2).
Proof.
  intros E before. split; [vm_compute; reflexivity|].
  apply (main_touches_only_what_it_writes E Example.cli before
           (main E Example.cli before).1).
  vm_compute. reflexivity.
Defined.

(** X14.  [main] never repeats a request: it posts at most once to the
    initialize endpoint and at most once to the generate endpoint, in that
    order, to no other address, and not at all to an endpoint whose phase is
    skipped; the only file it reads is the satellite file, at most once, and
    not with [--skip-init]. *)
Theorem main_posts_at_most_once_per_endpoint E a s r s' :
  main E a s = (r, s') →
  ∃ new, trace s' = trace s ++ new ∧
         posts_made new `sublist_of`
           requests_allowed a (constructed (arg_server a) (arg_output a)) ∧
         files_read new `sublist_of`
           (if arg_skip_init a then [] else [default "" (arg_satellite_file a)]).
Proof.
  intros H. destruct (main_effect E a s r s' H) as (new & [Ht _ _ _] & Hp & Hr).
  by exists new.
Qed.

Lemma main_posts_at_most_once_per_endpoint_witness :
  let E := Example.service Example.initialized (PostResponse 503 None)
             (Ok [frame_message 0 1 "f0.png" "t0" Example.hi]) in
  posts_made (trace (main E Example.cli Example.boot).2) =
    ["https://example.org/api/initialize"; "https://example.org/api/generate"] ∧
  ∃ new, trace (main E Example.cli Example.boot).2 = trace Example.boot ++ new ∧
         posts_made new `sublist_of`
           ["https://example.org/api/initialize"; "https://example.org/api/generate"] ∧
         files_read new `sublist_of` ["sat.json"].
Proof.
  intros E. split; [vm_compute; reflexivity|].
  apply (main_posts_at_most_once_per_endpoint E Example.cli Example.boot
           (main E Example.cli Example.boot).1).
  vm_compute. reflexivity.
Defined.

(** X15.  Once [main] reaches [receive_frames] it always ends by printing
    its "Transfer complete!" banner and returning normally, whatever the
    streaming phase did.  In particular, when the connection cannot be
    opened the failure is printed, no frame is received, no summary is
    written, and the banner follows all the same. *)
Theorem main_always_reports_transfer_complete E s :
  (∃ s1, receive_frames E s = (Ok tt, s1) ∧
         main_receive E s =
           (Ok Finished,
            {| self := self s1; fs := fs s1;
               trace := trace s1 ++ closing_lines E (self s1) |})) ∧
  (∀ e, ws_connect E (ws_url (self s)) 10 = Raise e →
     main_receive E s =
       (Ok Finished,
        {| self := self s; fs := fs s;
           trace := trace s ++
             [Print (L_connecting (ws_url (self s))); WsConnect (ws_url (self s)) 10;
              Print (L_ws_failed e)] ++ closing_lines E (self s) |})).
Proof.
  split.
  - destruct (receive_frames_effect E s) as (s1 & new & H & _).
    exists s1. split; [done|]. unfold main_receive, closing_lines. run_M. rewrite H. run_M.
    by rewrite <- !app_assoc.
  - intros e He. pose proof (receive_frames_spec E s) as H. rewrite He in H.
    unfold main_receive, closing_lines. run_M. rewrite H. run_M.
    by rewrite <- !app_assoc.
Qed.

Lemma main_always_reports_transfer_complete_witness :
  let E := Example.service Example.initialized (Example.generating 5)
             (Raise (WebSocketException "connection refused")) in
  main_receive E Example.ready =
    (Ok Finished,
     {| self := self Example.ready; fs := fs Example.ready;
        trace := [Print (L_connecting "wss://example.org/ws/frames");
                  WsConnect "wss://example.org/ws/frames" 10;
                  Print (L_ws_failed (WebSocketException "connection refused"));
                  Print L_rule; Print L_transfer_done;
                  Print (L_saved_to (PurePath true ["srv"; "out"])); Print L_rule] |}).
Proof.
  intros E.
  apply (proj2 (main_always_reports_transfer_complete E Example.ready)
           (WebSocketException "connection refused")).
  reflexivity.
Defined.

(** ** The counter and the stream *)

Lemma loop_iteration_one_write E ev s :
  ∃ c s' new, loop_iteration E ev s = (Ok c, s') ∧ trace s' = trace s ++ new ∧
              (length (frame_writes new) ≤ 1)%nat.
Proof.
  pose proof (loop_iteration_spec E ev s) as H.
  destruct (frame_write_of E s ev) as [[target payload]|].
  - destruct H as [ls H]. eexists _, _, _. split; [exact H|]. split; [reflexivity|].
    change (FrameWritten target payload :: map Print ls)
      with ([FrameWritten target payload] ++ map Print ls).
    by rewrite frame_writes_app, frame_writes_prints.
  - destruct H as (c & ls & H). eexists _, _, _. split; [exact H|]. split; [reflexivity|].
    rewrite frame_writes_prints. simpl. lia.
Qed.

Lemma receive_loop_writes_bound E stream s :
  ∃ s' new, receive_loop E stream s = (Ok tt, s') ∧ trace s' = trace s ++ new ∧
            (length (frame_writes new) ≤ length stream)%nat.
Proof.
  revert s. induction stream as [|ev stream IH]; intros s.
  - simpl. run_M. eexists _, _. split; [reflexivity|]. split; [reflexivity|]. simpl. lia.
  - destruct (loop_iteration_one_write E ev s) as (c & s1 & new1 & Hrun & Ht1 & Hb1).
    rewrite receive_loop_cons, Hrun. destruct c.
    + destruct (IH s1) as (s2 & new2 & Hrun2 & Ht2 & Hb2).
      exists s2, (new1 ++ new2). split; [done|]. split.
      * by rewrite Ht2, Ht1, app_assoc.
      * rewrite frame_writes_app, length_app. simpl. lia.
    + exists s1, new1. split; [done|]. split; [done|]. simpl. lia.
Qed.

(** X16.  Over one streaming phase the counter never goes down and grows by
    at most the number of messages the stream delivered; with no connection
    it does not move. *)
Theorem received_is_bounded_by_deliveries E s :
  let s' := (receive_frames E s).2 in
  (∀ stream, ws_connect E (ws_url (self s)) 10 = Ok stream →
     frames_received (self s) ≤ frames_received (self s')
       ≤ frames_received (self s) + Z.of_nat (length stream)) ∧
  (∀ e, ws_connect E (ws_url (self s)) 10 = Raise e →
     frames_received (self s') = frames_received (self s)).
Proof.
  intros s'. unfold s'. pose proof (receive_frames_spec E s) as H. split.
  - intros stream Hconn. rewrite Hconn in H. destruct H as (s1 & new & Hrun & Hst & H).
    destruct (receive_loop_writes_bound E stream (connected s)) as (s1' & new' & Hrun' & Ht & Hb).
    rewrite Hrun in Hrun'. simplify_eq.
    rewrite (st_trace _ _ _ Hst) in Ht. apply app_inv_head in Ht as ->.
    pose proof (st_counter _ _ _ Hst) as Hc. simpl in Hc.
    rewrite H. destruct (resolve_for_write _ _ _); simpl; lia.
  - intros e Hconn. rewrite Hconn in H. by rewrite H.
Qed.

Lemma received_is_bounded_by_deliveries_witness :
  let E := Example.service Example.initialized (Example.generating 5)
             (Ok [Message None; frame_message 0 1 "f0.png" "t0" Example.hi]) in
  frames_received (self Example.ready)
    ≤ frames_received (self (receive_frames E Example.ready).2)
    ≤ frames_received (self Example.ready) + 2.
Proof.
  intros E.
  apply (proj1 (received_is_bounded_by_deliveries E Example.ready)
           [Message None; frame_message 0 1 "f0.png" "t0" Example.hi]).
  reflexivity.
Defined.
